(** * WCKB type script: a shallow embedding of [c/wckb.c]

    The script validates one transaction.  It scans the inputs and the
    outputs through the CKB syscalls, buckets the NervosDAO and WCKB cells,
    aligns every amount to the block number of the first input of its script
    group and checks two equations.

    The embedding follows the C text function by function.  Unsigned
    integers are [Z] with the wrap-around written out, byte buffers are
    [list byte], the fixed arrays of [MAX_SWAPS] slots are lists holding the
    slots written so far, and the syscalls and the helpers of [dao_utils.h]
    are fields of an environment record. *)

From Stdlib Require Import ZArith List Bool Lia.
From Stdlib Require Import Strings.Byte.
Import ListNotations.
Local Open Scope Z_scope.

(** ** Constants of [wckb.c] *)

Definition BLAKE2B_BLOCK_SIZE : nat := 32.
Definition BLOCK_NUM_LEN : nat := 8.
Definition CKB_LEN : nat := 8.
Definition UDT_LEN : nat := 16.
Definition MAX_SWAPS : nat := 256.

Definition NERVOS_DAO_TYPE_HASH : list byte := repeat x00 32.

Definition UINT64_MOD : Z := 2 ^ 64.
Definition UINT128_MOD : Z := 2 ^ 128.
Definition INT_MAX : Z := 2147483647.

(** Conversion to [uint64_t] and to [uint128_t]. *)
Definition u64 (z : Z) : Z := z mod UINT64_MOD.
Definition u128 (z : Z) : Z := z mod UINT128_MOD.

(** ** Return codes

    [ckb_consts.h] and [defs.h] give the codes their numbers; the script only
    compares and returns them, so they stay symbolic here.  [ERROR_OTHER]
    stands for any code of [dao_utils.h] that [wckb.c] does not name. *)

Inductive retcode : Type :=
| CKB_SUCCESS
| CKB_INDEX_OUT_OF_BOUND
| CKB_ITEM_MISSING
| CKB_LENGTH_NOT_ENOUGH
| ERROR_SYSCALL
| ERROR_ENCODING
| ERROR_TOO_MANY_SWAPS
| ERROR_ALIGN
| ERROR_OUTPUT_ALIGN
| ERROR_INCORRECT_OUTPUT_WCKB
| ERROR_INCORRECT_UNINIT_OUTPUT_WCKB
| ERROR_OTHER (n : Z).

Definition is_success (r : retcode) : bool :=
  match r with CKB_SUCCESS => true | _ => false end.

Inductive source : Type :=
| CKB_SOURCE_INPUT
| CKB_SOURCE_OUTPUT
| CKB_SOURCE_HEADER_DEP
| CKB_SOURCE_GROUP_INPUT.

Inductive field : Type :=
| CKB_CELL_FIELD_CAPACITY
| CKB_CELL_FIELD_LOCK_HASH
| CKB_CELL_FIELD_TYPE_HASH
| CKB_CELL_FIELD_OCCUPIED_CAPACITY.

(** ** Outcome of a run

    [Ret] is a normal return.  [Fault] is an access outside an object (a
    store past the last slot of an array, a load through a pointer that was
    moved off its variable): C gives such a run no meaning.  [OutOfFuel] is
    the model's own: the [while (1)] loops take a fuel argument. *)

Inductive result (A : Type) : Type :=
| Ret (a : A)
| Fault
| OutOfFuel.

Arguments Ret {A} a.
Arguments Fault {A}.
Arguments OutOfFuel {A}.

Definition bind {A B : Type} (m : result A) (k : A -> result B) : result B :=
  match m with
  | Ret a => k a
  | Fault => Fault
  | OutOfFuel => OutOfFuel
  end.

Notation "x <- m ;; k" := (bind m (fun x => k))
  (at level 61, m at next level, right associativity).
Notation "' p <- m ;; k" := (bind m (fun x => let 'p := x in k))
  (at level 61, p pattern, m at next level, right associativity).

(** ** Data model *)

Module SwapInfo.
Record t : Type := mk { lock_hash : list byte; amount : Z }.
End SwapInfo.

Module TokenInfo.
Record t : Type := mk { block_number : Z; amount : Z }.
End TokenInfo.

(** [dao_header_data_t] of [dao_utils.h]: the script reads [block_number]
    only and hands the rest (epoch fields and the dao field) to the accrual
    function untouched. *)
Module dao_header_data_t.
Record t : Type := mk { block_number : Z; rest : list byte }.
End dao_header_data_t.

(** ** Bytes and buffers *)

Fixpoint bytes_eqb (a b : list byte) : bool :=
  match a, b with
  | [], [] => true
  | x :: a', y :: b' => Byte.eqb x y && bytes_eqb a' b'
  | _, _ => false
  end.

(** [memcmp (a, b, n) == 0] *)
Definition memcmp_eq (a b : list byte) (n : nat) : bool :=
  bytes_eqb (firstn n a) (firstn n b).

(** The value of [*(uintN_t * ) p] on the little-endian CKB VM. *)
Fixpoint le_decode (bs : list byte) : Z :=
  match bs with
  | [] => 0
  | b :: r => Z.of_N (Byte.to_N b) + 256 * le_decode r
  end.

Definition read_u64 (buf : list byte) (off : nat) : Z :=
  le_decode (firstn 8 (skipn off buf)).

Definition read_u128 (buf : list byte) (off : nat) : Z :=
  le_decode (firstn 16 (skipn off buf)).

(** A load of [data] into a buffer of [cap] bytes whose previous contents
    are [buf]: the first [cap] bytes of [data] are written, the bytes behind
    them keep what they held. *)
Definition load_into (buf : list byte) (cap : nat) (data : list byte)
  : list byte :=
  firstn cap data ++ skipn (length (firstn cap data)) (firstn cap buf).

(** ** The host: syscalls and [dao_utils.h]

    None of these is code of [wckb.c].  A syscall answers with a status
    and, on success, the full value of the item. *)

Record Env : Type := {
  host_script_hash : retcode * list byte;
  host_cell_field : nat -> source -> field -> retcode * list byte;
  host_cell_data : nat -> source -> retcode * list byte;
  host_dao_header : nat -> source -> retcode * dao_header_data_t.t;
  host_deposit_header_index : nat -> retcode * nat;
  (* occupied capacity, deposit header, target header, deposited block
     number, original capacity, previous value of the out parameter *)
  host_dao_capacity :
    Z -> dao_header_data_t.t -> dao_header_data_t.t -> Z -> Z -> Z ->
    retcode * Z
}.

(** Values the C text reads without having written them: the 24-byte cell
    data buffer as it is when an iteration of a scan starts, and
    [calculated_capacity] of [main] before the first alignment. *)
Record Indeterminate : Type := {
  stack_buf : source -> nat -> list byte;
  stack_calculated_capacity : Z
}.

(** What one pass through the body of a [while (1)] loop does: [Break r] is
    [break] (then [r] is [CKB_SUCCESS]) or [return r], [Continue] goes on to
    [i++] with the new state. *)
Inductive step (S : Type) : Type :=
| Break (r : retcode)
| Continue (s : S).

Arguments Break {S} r.
Arguments Continue {S} s.

Section Script.

Variable env : Env.
Variable stk : Indeterminate.

(** Modelled from the spec: [ckb_load_script_hash] of [ckb_syscalls.h],
    called with a 32-byte buffer; it reports the full length. *)
Definition ckb_load_script_hash : retcode * nat * list byte :=
  let '(ret, v) := host_script_hash env in
  (ret, length v, firstn BLAKE2B_BLOCK_SIZE v).

(** Modelled from the spec: [ckb_checked_load_cell_by_field] of
    [ckb_syscalls.h] for a buffer of [cap] bytes: a value longer than the
    buffer turns a success into [CKB_LENGTH_NOT_ENOUGH]. *)
Definition ckb_checked_load_cell_by_field
    (cap : nat) (i : nat) (src : source) (f : field)
  : retcode * nat * list byte :=
  let '(ret, v) := host_cell_field env i src f in
  match ret with
  | CKB_SUCCESS =>
      if (cap <? length v)%nat
      then (CKB_LENGTH_NOT_ENOUGH, length v, firstn cap v)
      else (CKB_SUCCESS, length v, v)
  | _ => (ret, cap, [])
  end.

(** Modelled from the spec: [ckb_load_cell_data] of [ckb_syscalls.h] into
    the 24-byte buffer [buf]: it copies what fits and reports the full
    length of the data. *)
Definition ckb_load_cell_data (i : nat) (src : source)
  : retcode * nat * list byte :=
  let buf := stack_buf stk src i in
  let '(ret, v) := host_cell_data env i src in
  match ret with
  | CKB_SUCCESS =>
      (CKB_SUCCESS, length v, load_into buf (UDT_LEN + BLOCK_NUM_LEN) v)
  | _ => (ret, (UDT_LEN + BLOCK_NUM_LEN)%nat, buf)
  end.

(** [load_dao_header_data], [extract_deposit_header_index] and
    [calculate_dao_input_capacity] of [dao_utils.h] are the host's.  The
    header a failed load leaves in the caller's struct is the one the host
    reports with the failure; the capacity comes back in a [uint64_t]. *)
Definition load_dao_header_data (i : nat) (src : source)
  : retcode * dao_header_data_t.t :=
  host_dao_header env i src.

Definition extract_deposit_header_index (i : nat) : retcode * nat :=
  host_deposit_header_index env i.

Definition calculate_dao_input_capacity
    (occupied_capacity : Z) (deposit_data withdraw_data : dao_header_data_t.t)
    (deposited_block_number original_capacity calculated_capacity : Z)
  : retcode * Z :=
  let '(ret, c) :=
    host_dao_capacity env occupied_capacity deposit_data withdraw_data
      deposited_block_number original_capacity calculated_capacity in
  (ret, u64 c).

(** ** Deposit-cell recognizers *)

Definition empty : list byte := repeat x00 8.

Definition is_dao_deposit_cell
    (cell_type_hash data : list byte) (data_len : nat) : bool :=
  memcmp_eq cell_type_hash NERVOS_DAO_TYPE_HASH BLAKE2B_BLOCK_SIZE
  && (data_len =? BLOCK_NUM_LEN)%nat
  && memcmp_eq data empty BLOCK_NUM_LEN.

Definition is_dao_withdraw1_cell
    (cell_type_hash data : list byte) (data_len : nat) : bool :=
  memcmp_eq cell_type_hash NERVOS_DAO_TYPE_HASH BLAKE2B_BLOCK_SIZE
  && (data_len =? BLOCK_NUM_LEN)%nat
  && negb (memcmp_eq data empty BLOCK_NUM_LEN).

(** [i++] on an [int]. *)
Definition int_incr (i : nat) : result nat :=
  if Z.of_nat i <? INT_MAX then Ret (S i) else Fault.

(** [infos[j] = x] with [j] the current count: the list holds slots
    [0 .. j-1], and slot [MAX_SWAPS] does not exist. *)
Definition store_new {A : Type} (infos : list A) (x : A) : result (list A) :=
  if (length infos <? MAX_SWAPS)%nat then Ret (infos ++ [x]) else Fault.

(** ** [fetch_inputs]

    [input_cell] is the body of the [while (1)] loop at index [i]. *)

Definition InputBuckets : Type := (list TokenInfo.t * list TokenInfo.t)%type.

Definition input_cell
    (type_hash : list byte) (i : nat)
    (withdraw_dao_infos input_wckb_infos : list TokenInfo.t)
  : result (step InputBuckets) :=
  let skip := Ret (Continue (withdraw_dao_infos, input_wckb_infos)) in
  let '(ret, len, input_type_hash) :=
    ckb_checked_load_cell_by_field BLAKE2B_BLOCK_SIZE i
      CKB_SOURCE_INPUT CKB_CELL_FIELD_TYPE_HASH in
  match ret with
  | CKB_INDEX_OUT_OF_BOUND => Ret (Break CKB_SUCCESS)
  | CKB_ITEM_MISSING => skip
  | CKB_SUCCESS =>
    if negb (len =? BLAKE2B_BLOCK_SIZE)%nat
    then Ret (Break ERROR_ENCODING) else
    let '(ret, len, buf) := ckb_load_cell_data i CKB_SOURCE_INPUT in
    match ret with
    | CKB_ITEM_MISSING => skip
    | CKB_SUCCESS =>
      if (UDT_LEN + BLOCK_NUM_LEN <? len)%nat
      then Ret (Break ERROR_ENCODING) else
      if is_dao_withdraw1_cell input_type_hash buf len then
        (* withdraw NervosDAO *)
        let deposited_block_number := read_u64 buf 0 in
        let '(ret, deposit_index) := extract_deposit_header_index i in
        if negb (is_success ret) then Ret (Break ret) else
        (* calculate withdraw amount *)
        let '(_, deposit_data) :=
          load_dao_header_data deposit_index CKB_SOURCE_HEADER_DEP in
        let '(_, withdraw_data) :=
          load_dao_header_data i CKB_SOURCE_INPUT in
        let '(ret, len, occ) :=
          ckb_checked_load_cell_by_field CKB_LEN i
            CKB_SOURCE_INPUT CKB_CELL_FIELD_OCCUPIED_CAPACITY in
        if negb (is_success ret && (len =? CKB_LEN)%nat)
        then Ret (Break ERROR_ENCODING) else
        let occupied_capacity := le_decode occ in
        let '(ret, len, cap) :=
          ckb_checked_load_cell_by_field CKB_LEN i
            CKB_SOURCE_INPUT CKB_CELL_FIELD_CAPACITY in
        if negb (is_success ret && (len =? CKB_LEN)%nat)
        then Ret (Break ERROR_ENCODING) else
        let original_capacity := le_decode cap in
        let '(_, calculated_capacity) :=
          calculate_dao_input_capacity occupied_capacity deposit_data
            withdraw_data deposited_block_number original_capacity 0 in
        (* record withdraw amount *)
        w <- store_new withdraw_dao_infos
               (TokenInfo.mk (dao_header_data_t.block_number withdraw_data)
                             calculated_capacity) ;;
        Ret (Continue (w, input_wckb_infos))
      else if memcmp_eq input_type_hash type_hash BLAKE2B_BLOCK_SIZE then
        (* WCKB *)
        if negb (len =? UDT_LEN)%nat then Ret (Break ERROR_ENCODING) else
        let amount := read_u128 buf 0 in
        let block_number := read_u64 buf UDT_LEN in
        (* record input amount *)
        iw <- store_new input_wckb_infos
                (TokenInfo.mk block_number amount) ;;
        Ret (Continue (withdraw_dao_infos, iw))
      else skip
    | _ => Ret (Break ERROR_ENCODING)
    end
  | _ => Ret (Break ERROR_ENCODING)
  end.

Fixpoint fetch_inputs_loop
    (fuel : nat) (type_hash : list byte) (i : nat)
    (withdraw_dao_infos input_wckb_infos : list TokenInfo.t)
  : result (retcode * list TokenInfo.t * list TokenInfo.t) :=
  match fuel with
  | O => OutOfFuel
  | S fuel' =>
      s <- input_cell type_hash i withdraw_dao_infos input_wckb_infos ;;
      match s with
      | Break r => Ret (r, withdraw_dao_infos, input_wckb_infos)
      | Continue (w, iw) =>
          i' <- int_incr i ;; fetch_inputs_loop fuel' type_hash i' w iw
      end
  end.

Definition fetch_inputs (fuel : nat) (type_hash : list byte)
  : result (retcode * list TokenInfo.t * list TokenInfo.t) :=
  fetch_inputs_loop fuel type_hash 0 [] [].

(** ** Lookups in the buckets: [Some j] is index [j], [None] is [-1] *)

Fixpoint find_swap_from
    (swap_infos : list SwapInfo.t) (j : nat) (lock_hash : list byte)
  : option nat :=
  match swap_infos with
  | [] => None
  | s :: rest =>
      if memcmp_eq (SwapInfo.lock_hash s) lock_hash BLAKE2B_BLOCK_SIZE
      then Some j
      else find_swap_from rest (S j) lock_hash
  end.

Definition find_swap_by_lock_hash
    (swap_infos : list SwapInfo.t) (swap_infos_cnt : nat)
    (lock_hash : list byte) : option nat :=
  find_swap_from (firstn swap_infos_cnt swap_infos) 0 lock_hash.

Fixpoint find_token_from
    (token_infos : list TokenInfo.t) (j : nat) (block_number : Z)
  : option nat :=
  match token_infos with
  | [] => None
  | t :: rest =>
      if TokenInfo.block_number t =? block_number
      then Some j
      else find_token_from rest (S j) block_number
  end.

Definition find_token_by_block_number
    (token_infos : list TokenInfo.t) (token_infos_cnt : nat)
    (block_number : Z) : option nat :=
  find_token_from (firstn token_infos_cnt token_infos) 0 block_number.

(** [infos[found].amount += amount] on [uint128_t] amounts. *)
Fixpoint swap_add_amount
    (infos : list SwapInfo.t) (found : nat) (amount : Z) : list SwapInfo.t :=
  match infos, found with
  | [], _ => []
  | s :: rest, O =>
      SwapInfo.mk (SwapInfo.lock_hash s)
                  (u128 (SwapInfo.amount s + amount)) :: rest
  | s :: rest, S k => s :: swap_add_amount rest k amount
  end.

Fixpoint token_add_amount
    (infos : list TokenInfo.t) (found : nat) (amount : Z) : list TokenInfo.t :=
  match infos, found with
  | [], _ => []
  | t :: rest, O =>
      TokenInfo.mk (TokenInfo.block_number t)
                   (u128 (TokenInfo.amount t + amount)) :: rest
  | t :: rest, S k => t :: token_add_amount rest k amount
  end.

(** [infos[j] = x] for a slot [j] below [MAX_SWAPS] that is either written
    already or the first unwritten one. *)
Fixpoint store_at {A : Type} (infos : list A) (j : nat) (x : A) : list A :=
  match infos, j with
  | [], _ => [x]
  | _ :: rest, O => x :: rest
  | y :: rest, S k => y :: store_at rest k x
  end.

(** ** [fetch_outputs]

    [main] owns the three counters and passes their addresses.  The counts
    of the two WCKB buckets are the lengths of their lists.  The count of
    the deposited-dao bucket is kept apart from its array: line 283 is
    [deposited_dao_cnt++], which moves the pointer and leaves the counter
    of [main] as it is; [cnt_ptr] is how far the pointer has moved, and a
    load through the moved pointer is a [Fault].

    [output_cell] is the body of the [while (1)] loop at index [i]. *)

Record Outputs : Type := {
  deposited_dao : list SwapInfo.t;
  deposited_dao_cnt : nat;
  uninitialized_wckb : list SwapInfo.t;
  initialized_wckb : list TokenInfo.t
}.

Definition no_outputs : Outputs :=
  {| deposited_dao := []; deposited_dao_cnt := 0;
     uninitialized_wckb := []; initialized_wckb := [] |}.

Definition deref_cnt (cnt_ptr : nat) (cnt : nat) : result nat :=
  match cnt_ptr with O => Ret cnt | S _ => Fault end.

Definition output_cell
    (wckb_type_hash : list byte) (align_block_number : Z)
    (i : nat) (cnt_ptr : nat) (st : Outputs)
  : result (step (nat * Outputs)) :=
  let next p s := Ret (Continue (p, s)) in
  let '(ret, len, output_type_hash) :=
    ckb_checked_load_cell_by_field BLAKE2B_BLOCK_SIZE i
      CKB_SOURCE_OUTPUT CKB_CELL_FIELD_TYPE_HASH in
  match ret with
  | CKB_INDEX_OUT_OF_BOUND => Ret (Break CKB_SUCCESS)
  | CKB_ITEM_MISSING => Ret (Continue (cnt_ptr, st))
  | CKB_SUCCESS =>
    if negb (len =? BLAKE2B_BLOCK_SIZE)%nat
    then Ret (Break ERROR_ENCODING) else
    let '(ret, len, buf) := ckb_load_cell_data i CKB_SOURCE_OUTPUT in
    match ret with
    | CKB_ITEM_MISSING => Ret (Continue (cnt_ptr, st))
    | CKB_SUCCESS =>
      if (UDT_LEN + BLOCK_NUM_LEN <? len)%nat
      then Ret (Break ERROR_ENCODING) else
      if is_dao_deposit_cell output_type_hash buf len then
        (* check deposited dao cell *)
        let '(ret, len, lock_hash) :=
          ckb_checked_load_cell_by_field BLAKE2B_BLOCK_SIZE i
            CKB_SOURCE_OUTPUT CKB_CELL_FIELD_LOCK_HASH in
        match ret with
        | CKB_INDEX_OUT_OF_BOUND => Ret (Break CKB_SUCCESS)
        | CKB_SUCCESS =>
          if negb (len =? BLAKE2B_BLOCK_SIZE)%nat
          then Ret (Break ERROR_SYSCALL) else
          let '(ret, len, cap) :=
            ckb_checked_load_cell_by_field CKB_LEN i
              CKB_SOURCE_OUTPUT CKB_CELL_FIELD_CAPACITY in
          if negb (is_success ret && (len =? CKB_LEN)%nat)
          then Ret (Break ERROR_SYSCALL) else
          let amount := le_decode cap in
          (* record deposited dao amount *)
          cnt <- deref_cnt cnt_ptr (deposited_dao_cnt st) ;;
          match find_swap_by_lock_hash (deposited_dao st) cnt lock_hash with
          | Some found =>
              next cnt_ptr
                {| deposited_dao :=
                     swap_add_amount (deposited_dao st) found amount;
                   deposited_dao_cnt := deposited_dao_cnt st;
                   uninitialized_wckb := uninitialized_wckb st;
                   initialized_wckb := initialized_wckb st |}
          | None =>
              if (MAX_SWAPS <=? cnt)%nat
              then Ret (Break ERROR_TOO_MANY_SWAPS) else
              let new_i := cnt in
              next (S cnt_ptr)
                {| deposited_dao :=
                     store_at (deposited_dao st) new_i
                       (SwapInfo.mk lock_hash amount);
                   deposited_dao_cnt := deposited_dao_cnt st;
                   uninitialized_wckb := uninitialized_wckb st;
                   initialized_wckb := initialized_wckb st |}
          end
        | _ => Ret (Break ERROR_SYSCALL)
        end
      else if memcmp_eq output_type_hash wckb_type_hash BLAKE2B_BLOCK_SIZE
      then
        (* check wckb cell *)
        if negb (len =? UDT_LEN + BLOCK_NUM_LEN)%nat
        then Ret (Break ERROR_ENCODING) else
        let amount := read_u128 buf 0 in
        let block_number := read_u64 buf UDT_LEN in
        if block_number =? 0 then
          (* wckb is unitialized, record the amount *)
          let '(ret, len, lock_hash) :=
            ckb_checked_load_cell_by_field BLAKE2B_BLOCK_SIZE i
              CKB_SOURCE_OUTPUT CKB_CELL_FIELD_LOCK_HASH in
          match ret with
          | CKB_INDEX_OUT_OF_BOUND => Ret (Break CKB_SUCCESS)
          | CKB_SUCCESS =>
            if negb (len =? BLAKE2B_BLOCK_SIZE)%nat
            then Ret (Break ERROR_SYSCALL) else
            let cnt := length (uninitialized_wckb st) in
            match find_swap_by_lock_hash (uninitialized_wckb st) cnt
                    lock_hash with
            | Some found =>
                next cnt_ptr
                  {| deposited_dao := deposited_dao st;
                     deposited_dao_cnt := deposited_dao_cnt st;
                     uninitialized_wckb :=
                       swap_add_amount (uninitialized_wckb st) found amount;
                     initialized_wckb := initialized_wckb st |}
            | None =>
                if (MAX_SWAPS <=? cnt)%nat
                then Ret (Break ERROR_TOO_MANY_SWAPS) else
                next cnt_ptr
                  {| deposited_dao := deposited_dao st;
                     deposited_dao_cnt := deposited_dao_cnt st;
                     uninitialized_wckb :=
                       uninitialized_wckb st
                         ++ [SwapInfo.mk lock_hash amount];
                     initialized_wckb := initialized_wckb st |}
            end
          | _ => Ret (Break ERROR_SYSCALL)
          end
        else
          (* wckb is initialized *)
          if negb (block_number =? align_block_number)
          then Ret (Break ERROR_OUTPUT_ALIGN) else
          let cnt := length (initialized_wckb st) in
          match find_token_by_block_number (initialized_wckb st) cnt
                  block_number with
          | Some found =>
              next cnt_ptr
                {| deposited_dao := deposited_dao st;
                   deposited_dao_cnt := deposited_dao_cnt st;
                   uninitialized_wckb := uninitialized_wckb st;
                   initialized_wckb :=
                     token_add_amount (initialized_wckb st) found amount |}
          | None =>
              if (MAX_SWAPS <=? cnt)%nat
              then Ret (Break ERROR_TOO_MANY_SWAPS) else
              next cnt_ptr
                {| deposited_dao := deposited_dao st;
                   deposited_dao_cnt := deposited_dao_cnt st;
                   uninitialized_wckb := uninitialized_wckb st;
                   initialized_wckb :=
                     initialized_wckb st
                       ++ [TokenInfo.mk block_number amount] |}
          end
      else Ret (Continue (cnt_ptr, st))
    | _ => Ret (Break ERROR_ENCODING)
    end
  | _ => Ret (Break ERROR_ENCODING)
  end.

Fixpoint fetch_outputs_loop
    (fuel : nat) (wckb_type_hash : list byte) (align_block_number : Z)
    (i : nat) (cnt_ptr : nat) (st : Outputs)
  : result (retcode * Outputs) :=
  match fuel with
  | O => OutOfFuel
  | S fuel' =>
      s <- output_cell wckb_type_hash align_block_number i cnt_ptr st ;;
      match s with
      | Break r => Ret (r, st)
      | Continue (p, st') =>
          i' <- int_incr i ;;
          fetch_outputs_loop fuel' wckb_type_hash align_block_number i' p st'
      end
  end.

Definition fetch_outputs
    (fuel : nat) (wckb_type_hash : list byte) (align_block_number : Z)
  : result (retcode * Outputs) :=
  fetch_outputs_loop fuel wckb_type_hash align_block_number 0 0 no_outputs.

(** ** [align_dao]

    [calculated_capacity] is an out parameter: the function takes the value
    it holds on entry and returns the value it holds on exit.  Line 357
    assigns to the by-value parameter [original_capacity]; nothing is written
    through the pointer on that path. *)

Definition align_dao
    (i : nat) (src : source) (align_target_data : dao_header_data_t.t)
    (deposited_block_number original_capacity calculated_capacity : Z)
  : retcode * Z :=
  if dao_header_data_t.block_number align_target_data
       =? deposited_block_number
  then (CKB_SUCCESS, calculated_capacity)
  else if dao_header_data_t.block_number align_target_data
            <? deposited_block_number
  then (ERROR_ALIGN, calculated_capacity)
  else
    let '(ret, len, occ) :=
      ckb_checked_load_cell_by_field CKB_LEN i src
        CKB_CELL_FIELD_OCCUPIED_CAPACITY in
    if negb (is_success ret && (len =? CKB_LEN)%nat)
    then (ERROR_ENCODING, calculated_capacity) else
    let occupied_capacity := le_decode occ in
    let '(ret, deposit_data) := load_dao_header_data i src in
    if negb (is_success ret) then (ret, calculated_capacity) else
    (* uninitialized wckb *)
    let deposited_block_number :=
      if deposited_block_number =? 0
      then dao_header_data_t.block_number deposit_data
      else deposited_block_number in
    calculate_dao_input_capacity occupied_capacity deposit_data
      align_target_data deposited_block_number original_capacity
      calculated_capacity.

(** ** [main] *)

(** One of the three [for] loops of lines 432-462 from index [i] on:
    [infos] are the entries not yet aligned, [total] the running
    [uint64_t] sum.  The [uint128_t] amount is converted to the [uint64_t]
    parameter of [align_dao]. *)
Fixpoint align_loop
    (src : source) (align_target_data : dao_header_data_t.t)
    (infos : list TokenInfo.t) (i : nat) (calculated_capacity total : Z)
  : retcode * Z * Z :=
  match infos with
  | [] => (CKB_SUCCESS, calculated_capacity, total)
  | e :: rest =>
      let '(ret, c) :=
        align_dao i src align_target_data (TokenInfo.block_number e)
          (u64 (TokenInfo.amount e)) calculated_capacity in
      if negb (is_success ret) then (ret, c, total)
      else align_loop src align_target_data rest (S i) c
             (u64 (total + c))
  end.

(** Line 465. *)
Definition equation_1
    (total_input_wckb total_withdraw_dao total_output_wckb : Z) : bool :=
  u64 (total_input_wckb - total_withdraw_dao) =? total_output_wckb.

(** Lines 471-480. *)
Fixpoint equation_2
    (deposited_dao : list SwapInfo.t) (deposited_dao_cnt : nat)
    (output_uninit_wckb : list SwapInfo.t) : retcode :=
  match output_uninit_wckb with
  | [] => CKB_SUCCESS
  | u :: rest =>
      match find_swap_by_lock_hash deposited_dao deposited_dao_cnt
              (SwapInfo.lock_hash u) with
      | None => ERROR_INCORRECT_UNINIT_OUTPUT_WCKB
      | Some found =>
          match nth_error deposited_dao found with
          | Some d =>
              if negb (SwapInfo.amount u =? SwapInfo.amount d)
              then ERROR_INCORRECT_UNINIT_OUTPUT_WCKB
              else equation_2 deposited_dao deposited_dao_cnt rest
          | None =>
              (* not reached: [found] is below the count, and the slots
                 below the count are written *)
              ERROR_INCORRECT_UNINIT_OUTPUT_WCKB
          end
      end
  end.

(** Lines 464-482: the two equations over the aligned totals. *)
Definition check_totals
    (total_input_wckb total_withdraw_dao total_output_wckb : Z)
    (outs : Outputs) : retcode :=
  (* 1. inputs WCKB - withdraw NervosDAO == outputs WCKB *)
  if negb (equation_1 total_input_wckb total_withdraw_dao total_output_wckb)
  then ERROR_INCORRECT_OUTPUT_WCKB else
  (* 2. uninited WCKB == deposited NervosDAO *)
  equation_2 (deposited_dao outs) (deposited_dao_cnt outs)
    (uninitialized_wckb outs).

(** Lines 426-482: alignment of the three token buckets, then the
    equations. *)
Definition check_equations
    (align_target_data : dao_header_data_t.t)
    (withdraw_dao_infos input_wckb_infos : list TokenInfo.t)
    (outs : Outputs) : retcode :=
  let calculated_capacity := stack_calculated_capacity stk in
  let '(ret, calculated_capacity, total_withdraw_dao) :=
    align_loop CKB_SOURCE_INPUT align_target_data withdraw_dao_infos 0
      calculated_capacity 0 in
  if negb (is_success ret) then ret else
  let '(ret, calculated_capacity, total_input_wckb) :=
    align_loop CKB_SOURCE_INPUT align_target_data input_wckb_infos 0
      calculated_capacity 0 in
  if negb (is_success ret) then ret else
  let '(ret, calculated_capacity, total_output_wckb) :=
    align_loop CKB_SOURCE_OUTPUT align_target_data (initialized_wckb outs) 0
      calculated_capacity 0 in
  if negb (is_success ret) then ret else
  check_totals total_input_wckb total_withdraw_dao total_output_wckb outs.

Definition main (fuel : nat) : result retcode :=
  (* load self type hash *)
  let '(ret, len, type_hash) := ckb_load_script_hash in
  if negb (is_success ret && (len =? BLAKE2B_BLOCK_SIZE)%nat)
  then Ret ERROR_SYSCALL else
  (* load aligned target header *)
  let '(ret, align_target_data) :=
    load_dao_header_data 0 CKB_SOURCE_GROUP_INPUT in
  if negb (is_success ret) then Ret ERROR_ENCODING else
  (* fetch inputs *)
  '(ret, withdraw_dao_infos, input_wckb_infos) <-
    fetch_inputs fuel type_hash ;;
  if negb (is_success ret) then Ret ret else
  (* fetch outputs *)
  '(ret, outs) <-
    fetch_outputs fuel type_hash
      (dao_header_data_t.block_number align_target_data) ;;
  if negb (is_success ret) then Ret ret else
  Ret (check_equations align_target_data withdraw_dao_infos
         input_wckb_infos outs).

End Script.

(** ** A host built from a transaction

    The statements about concrete transactions below run the script against
    this host.  It answers the syscalls the way the CKB VM does for a
    transaction given as two lists of cells: an index past the end of a list
    is [CKB_INDEX_OUT_OF_BOUND], a cell without type script has no type hash
    ([CKB_ITEM_MISSING]), and the script group is made of the inputs whose
    type hash is the hash of the running script. *)

Module Host.

Record Cell : Type := {
  type_hash : option (list byte);
  lock_hash : list byte;
  capacity : Z;
  occupied_capacity : Z;
  data : list byte;
  (* header of the block that committed the cell, when the transaction
     lists it in its header deps *)
  header : option dao_header_data_t.t
}.

Record Transaction : Type := {
  script_hash : list byte;
  inputs : list Cell;
  outputs : list Cell;
  header_deps : list dao_header_data_t.t;
  (* witness data: for a withdrawing input, the header dep of its deposit *)
  deposit_header_index : nat -> option nat;
  accrual :
    Z -> dao_header_data_t.t -> dao_header_data_t.t -> Z -> Z -> Z ->
    retcode * Z
}.

Definition byte_of_Z (z : Z) : byte :=
  match Byte.of_N (Z.to_N (z mod 256)) with
  | Some b => b
  | None => x00
  end.

(** [n] bytes, little-endian. *)
Fixpoint le_encode (n : nat) (z : Z) : list byte :=
  match n with
  | O => []
  | S k => byte_of_Z z :: le_encode k (z / 256)
  end.

Definition in_group (tx : Transaction) (c : Cell) : bool :=
  match type_hash c with
  | Some h => bytes_eqb h (script_hash tx)
  | None => false
  end.

Definition cells (tx : Transaction) (src : source) : list Cell :=
  match src with
  | CKB_SOURCE_INPUT => inputs tx
  | CKB_SOURCE_OUTPUT => outputs tx
  | CKB_SOURCE_GROUP_INPUT => filter (in_group tx) (inputs tx)
  | CKB_SOURCE_HEADER_DEP => []
  end.

Definition no_header : dao_header_data_t.t := dao_header_data_t.mk 0 [].

Definition env (tx : Transaction) : Env := {|
  host_script_hash := (CKB_SUCCESS, script_hash tx);
  host_cell_field := fun i src f =>
    match nth_error (cells tx src) i with
    | None => (CKB_INDEX_OUT_OF_BOUND, [])
    | Some c =>
        match f with
        | CKB_CELL_FIELD_TYPE_HASH =>
            match type_hash c with
            | Some h => (CKB_SUCCESS, h)
            | None => (CKB_ITEM_MISSING, [])
            end
        | CKB_CELL_FIELD_LOCK_HASH => (CKB_SUCCESS, lock_hash c)
        | CKB_CELL_FIELD_CAPACITY => (CKB_SUCCESS, le_encode 8 (capacity c))
        | CKB_CELL_FIELD_OCCUPIED_CAPACITY =>
            (CKB_SUCCESS, le_encode 8 (occupied_capacity c))
        end
    end;
  host_cell_data := fun i src =>
    match nth_error (cells tx src) i with
    | None => (CKB_INDEX_OUT_OF_BOUND, [])
    | Some c => (CKB_SUCCESS, data c)
    end;
  host_dao_header := fun i src =>
    match src with
    | CKB_SOURCE_HEADER_DEP =>
        match nth_error (header_deps tx) i with
        | Some h => (CKB_SUCCESS, h)
        | None => (CKB_INDEX_OUT_OF_BOUND, no_header)
        end
    | _ =>
        match nth_error (cells tx src) i with
        | None => (CKB_INDEX_OUT_OF_BOUND, no_header)
        | Some c =>
            match header c with
            | Some h => (CKB_SUCCESS, h)
            | None => (CKB_ITEM_MISSING, no_header)
            end
        end
    end;
  host_deposit_header_index := fun i =>
    match deposit_header_index tx i with
    | Some k => (CKB_SUCCESS, k)
    | None => (ERROR_ENCODING, O)
    end;
  host_dao_capacity := accrual tx
|}.

(** A stack whose cell-data buffer holds [junk] at every iteration. *)
Definition stack (junk : list byte) (c : Z) : Indeterminate := {|
  stack_buf := fun _ _ => junk;
  stack_calculated_capacity := c
|}.

(** The accrual of a deposit that earned nothing: the capacity itself. *)
Definition no_interest
    (occ : Z) (d w : dao_header_data_t.t) (dbn orig prev : Z) : retcode * Z :=
  (CKB_SUCCESS, orig).

Definition hash_of (b : byte) : list byte := repeat b 32.

Definition wckb_data (amount height : Z) : list byte :=
  le_encode 16 amount ++ le_encode 8 height.

End Host.

(** ** Vocabulary of the statements *)

Section Statements.

Variable env : Env.
Variable stk : Indeterminate.

(** [outputs_prefix h a k = Some (p, st)]: the output scan gets as far as
    index [k], and arrives there with the counter pointer moved by [p] and
    the buckets [st]. *)
Fixpoint outputs_prefix
    (wckb_type_hash : list byte) (align_block_number : Z) (k : nat)
  : option (nat * Outputs) :=
  match k with
  | O => Some (O, no_outputs)
  | S k' =>
      match outputs_prefix wckb_type_hash align_block_number k' with
      | Some (p, st) =>
          match output_cell env stk wckb_type_hash align_block_number
                  k' p st, int_incr k' with
          | Ret (Continue s), Ret _ => Some s
          | _, _ => None
          end
      | None => None
      end
  end.

(** The part of [main] before the output scan went through: the script
    hash is [type_hash], the alignment target is [tgt], the input scan
    returned the buckets [w] and [iw]. *)
Definition inputs_scanned
    (fuel : nat) (type_hash : list byte) (tgt : dao_header_data_t.t)
    (w iw : list TokenInfo.t) : Prop :=
  host_script_hash env = (CKB_SUCCESS, type_hash)
  /\ length type_hash = BLAKE2B_BLOCK_SIZE
  /\ host_dao_header env 0 CKB_SOURCE_GROUP_INPUT = (CKB_SUCCESS, tgt)
  /\ fetch_inputs env stk fuel type_hash = Ret (CKB_SUCCESS, w, iw).

(** Both scans went through. *)
Definition scanned
    (fuel : nat) (type_hash : list byte) (tgt : dao_header_data_t.t)
    (w iw : list TokenInfo.t) (outs : Outputs) : Prop :=
  inputs_scanned fuel type_hash tgt w iw
  /\ fetch_outputs env stk fuel type_hash
       (dao_header_data_t.block_number tgt) = Ret (CKB_SUCCESS, outs).

(** The Aligner gets to entry [e]: every entry that [main] aligns before
    it was aligned with [CKB_SUCCESS]. *)
Inductive aligner_reaches
    (tgt : dao_header_data_t.t) (w iw : list TokenInfo.t) (outs : Outputs)
    (e : TokenInfo.t) : Prop :=
| reaches_withdraw (pre post : list TokenInfo.t) (c t : Z) :
    w = pre ++ e :: post ->
    align_loop env CKB_SOURCE_INPUT tgt pre 0
      (stack_calculated_capacity stk) 0 = (CKB_SUCCESS, c, t) ->
    aligner_reaches tgt w iw outs e
| reaches_input (pre post : list TokenInfo.t) (c1 t1 c t : Z) :
    align_loop env CKB_SOURCE_INPUT tgt w 0
      (stack_calculated_capacity stk) 0 = (CKB_SUCCESS, c1, t1) ->
    iw = pre ++ e :: post ->
    align_loop env CKB_SOURCE_INPUT tgt pre 0 c1 0 = (CKB_SUCCESS, c, t) ->
    aligner_reaches tgt w iw outs e
| reaches_output (pre post : list TokenInfo.t) (c1 t1 c2 t2 c t : Z) :
    align_loop env CKB_SOURCE_INPUT tgt w 0
      (stack_calculated_capacity stk) 0 = (CKB_SUCCESS, c1, t1) ->
    align_loop env CKB_SOURCE_INPUT tgt iw 0 c1 0 = (CKB_SUCCESS, c2, t2) ->
    initialized_wckb outs = pre ++ e :: post ->
    align_loop env CKB_SOURCE_OUTPUT tgt pre 0 c2 0 = (CKB_SUCCESS, c, t) ->
    aligner_reaches tgt w iw outs e.

(** Output [i] carries the type hash [h]. *)
Definition output_type_is (i : nat) (h : list byte) : bool :=
  match host_cell_field env i CKB_SOURCE_OUTPUT CKB_CELL_FIELD_TYPE_HASH with
  | (CKB_SUCCESS, v) => bytes_eqb v h
  | _ => false
  end.

(** [Some h]: output [i] is a wrapped-token cell for the script hash
    [type_hash], its payload has 24 bytes and its height field is [h]. *)
Definition wckb_output_height (type_hash : list byte) (i : nat) : option Z :=
  if output_type_is i type_hash then
    match host_cell_data env i CKB_SOURCE_OUTPUT with
    | (CKB_SUCCESS, d) =>
        if (length d =? UDT_LEN + BLOCK_NUM_LEN)%nat
        then Some (read_u64 d UDT_LEN) else None
    | _ => None
    end
  else None.

(** [Some l]: output [i] is an uninitialized wrapped-token cell (height 0)
    whose lock hash is the 32 bytes [l]. *)
Definition uninit_lock (type_hash : list byte) (i : nat)
  : option (list byte) :=
  match wckb_output_height type_hash i with
  | Some 0 =>
      match host_cell_field env i CKB_SOURCE_OUTPUT
              CKB_CELL_FIELD_LOCK_HASH with
      | (CKB_SUCCESS, l) =>
          if (length l =? BLAKE2B_BLOCK_SIZE)%nat then Some l else None
      | _ => None
      end
  | _ => None
  end.

End Statements.

(** ** Transactions the statements are run on *)

Module Examples.
Import Host.

(** Hash of the WCKB type script, and a lock hash. *)
Definition SELF : list byte := hash_of x77.
Definition LOCK : list byte := hash_of x11.

Definition header_at (n : Z) : dao_header_data_t.t :=
  dao_header_data_t.mk n [].

(** A WCKB cell with payload [payload], committed in block [committed]. *)
Definition wckb_cell (payload : list byte) (lock : list byte)
    (committed : option Z) : Cell :=
  {| type_hash := Some SELF; lock_hash := lock;
     capacity := 20000; occupied_capacity := 6100;
     data := payload;
     header := option_map header_at committed |}.

(** A NervosDAO cell: [payload] is 8 zero bytes for a deposit and the
    deposit's block number for a phase-1 withdrawal. *)
Definition dao_cell (cap : Z) (payload : list byte) (lock : list byte)
    (committed : option Z) : Cell :=
  {| type_hash := Some NERVOS_DAO_TYPE_HASH; lock_hash := lock;
     capacity := cap; occupied_capacity := 10200;
     data := payload;
     header := option_map header_at committed |}.

Definition transaction (ins outs : list Cell) : Transaction :=
  {| script_hash := SELF; inputs := ins; outputs := outs;
     header_deps := []; deposit_header_index := fun _ => None;
     accrual := no_interest |}.

(** A stack whose buffers hold zero bytes, and one whose cell-data buffer
    holds the block number [h] behind the first 16 bytes. *)
Definition zero_stack (c : Z) : Indeterminate := stack (repeat x00 24) c.
Definition stack_with_height (h c : Z) : Indeterminate :=
  stack (wckb_data 0 h) c.

(** One WCKB input of 1000 committed in block 100, one WCKB output of
    [out_amount] at height 100. *)
Definition tx_transfer (out_amount : Z) : Transaction :=
  transaction [wckb_cell (le_encode 16 1000) LOCK (Some 100)]
              [wckb_cell (wckb_data out_amount 100) LOCK None].

(** The same transfer with the input in the 24-byte form. *)
Definition tx_input_24 : Transaction :=
  transaction [wckb_cell (wckb_data 1000 100) LOCK (Some 100)]
              [wckb_cell (wckb_data 1000 100) LOCK None].

(** Scenario B on top of the balanced transfer: a deposit of 500 under
    [LOCK] and an uninitialized WCKB output of 500 under [LOCK]. *)
Definition tx_scenario_B : Transaction :=
  transaction [wckb_cell (le_encode 16 1000) LOCK (Some 100)]
              [wckb_cell (wckb_data 1000 100) LOCK None;
               dao_cell 500 (repeat x00 8) LOCK None;
               wckb_cell (wckb_data 500 0) LOCK None].

(** Scenario B with nothing else: no input belongs to the script group. *)
Definition tx_scenario_B_alone : Transaction :=
  transaction []
              [dao_cell 500 (repeat x00 8) LOCK None;
               wckb_cell (wckb_data 500 0) LOCK None].

(** Scenario C: the target is block 150, the output is at height 100. *)
Definition tx_scenario_C : Transaction :=
  transaction [wckb_cell (le_encode 16 1000) LOCK (Some 150)]
              [wckb_cell (wckb_data 1000 100) LOCK None].

(** 257 WCKB inputs. *)
Definition tx_many_inputs : Transaction :=
  transaction (repeat (wckb_cell (le_encode 16 1) LOCK (Some 100)) 257) [].

(** Scenario D: 257 uninitialized WCKB outputs, output [j] under the lock
    hash that encodes [j]. *)
Definition tx_many_locks : Transaction :=
  transaction [wckb_cell (le_encode 16 1000) LOCK (Some 100)]
    (map (fun j => wckb_cell (wckb_data 1 0) (le_encode 32 (Z.of_nat j)) None)
         (seq 0 257)).

(** Three uninitialized WCKB outputs, the first and the last under the same
    lock hash. *)
Definition tx_mint_twice : Transaction :=
  transaction [wckb_cell (le_encode 16 1000) LOCK (Some 100)]
              [wckb_cell (wckb_data 300 0) LOCK None;
               wckb_cell (wckb_data 5 0) (hash_of x22) None;
               wckb_cell (wckb_data 200 0) LOCK None].

(** A transfer with one more output: a cell of another type script (hash
    [x33] repeated) that carries 25 bytes of data. *)
Definition tx_with_long_data : Transaction :=
  transaction [wckb_cell (le_encode 16 1000) LOCK (Some 100)]
              [wckb_cell (wckb_data 1000 100) LOCK None;
               {| type_hash := Some (hash_of x33); lock_hash := LOCK;
                  capacity := 20000; occupied_capacity := 8600;
                  data := repeat x01 25; header := None |}].

(** Two initialized WCKB outputs at the target height. *)
Definition tx_two_outputs : Transaction :=
  transaction [wckb_cell (le_encode 16 1000) LOCK (Some 100)]
              [wckb_cell (wckb_data 600 100) LOCK None;
               wckb_cell (wckb_data 400 100) LOCK None].

(** A WCKB input at position 0 and a phase-1 withdrawal at position 1: the
    deposit was made in block 40 (header dep 0), the withdrawal cell was
    committed in block 50, the WCKB cell in block 100.  The accrual function
    [f] is left open. *)
Definition tx_withdraw
    (f : Z -> dao_header_data_t.t -> dao_header_data_t.t -> Z -> Z -> Z ->
         retcode * Z) : Transaction :=
  {| script_hash := SELF;
     inputs := [wckb_cell (le_encode 16 1000) LOCK (Some 100);
                dao_cell 50000 (le_encode 8 40) LOCK (Some 50)];
     outputs := [];
     header_deps := [header_at 40];
     deposit_header_index :=
       fun i => match i with 1%nat => Some 0%nat | _ => None end;
     accrual := f |}.

End Examples.

(** ** Invariants of the output buckets *)

(** The initialized bucket holds at most one entry, at height [a]. *)
Definition one_height (a : Z) (l : list TokenInfo.t) : Prop :=
  (length l <= 1)%nat /\ Forall (fun t => TokenInfo.block_number t = a) l.

(** The lock hashes of a bucket of swaps. *)
Definition locks (l : list SwapInfo.t) : list (list byte) :=
  map SwapInfo.lock_hash l.

(** The bucket is within its capacity and its lock hashes have 32 bytes. *)
Definition well_locked (l : list SwapInfo.t) : Prop :=
  (length l <= MAX_SWAPS)%nat
  /\ Forall (fun s => length (SwapInfo.lock_hash s) = BLAKE2B_BLOCK_SIZE) l.

(** Pairwise distinct byte strings, by computation. *)
Fixpoint distinctb (l : list (list byte)) : bool :=
  match l with
  | [] => true
  | x :: r => negb (existsb (bytes_eqb x) r) && distinctb r
  end.

(** Case analysis on every [match] of a hypothesis. *)
Ltac break_match_in H :=
  repeat match type of H with
         | context [match ?x with _ => _ end] =>
             destruct x eqn:?; simpl in H; try discriminate H
         end.

(** ** Vocabulary of the further statements *)

Section MoreStatements.

Variable env : Env.
Variable stk : Indeterminate.

(** [inputs_prefix h k = Some (w, iw)]: the input scan gets as far as index
    [k], and arrives there with the buckets [w] and [iw]. *)
Fixpoint inputs_prefix (type_hash : list byte) (k : nat)
  : option InputBuckets :=
  match k with
  | O => Some ([], [])
  | S k' =>
      match inputs_prefix type_hash k' with
      | Some (w, iw) =>
          match input_cell env stk type_hash k' w iw, int_incr k' with
          | Ret (Continue s), Ret _ => Some s
          | _, _ => None
          end
      | None => None
      end
  end.

(** [Some e]: input [i] is a wrapped-token cell for the script hash
    [type_hash] with a 16-byte payload, and [e] is what lines 174-175 read
    from the buffer after the load. *)
Definition wckb_input_entry (type_hash : list byte) (i : nat)
  : option TokenInfo.t :=
  match host_cell_field env i CKB_SOURCE_INPUT CKB_CELL_FIELD_TYPE_HASH with
  | (CKB_SUCCESS, v) =>
      if bytes_eqb v type_hash then
        match host_cell_data env i CKB_SOURCE_INPUT with
        | (CKB_SUCCESS, d) =>
            if (length d =? UDT_LEN)%nat then
              let buf :=
                load_into (stack_buf stk CKB_SOURCE_INPUT i)
                  (UDT_LEN + BLOCK_NUM_LEN) d in
              Some (TokenInfo.mk (read_u64 buf UDT_LEN) (read_u128 buf 0))
            else None
        | _ => None
        end
      else None
  | _ => None
  end.

(** The amount field of the payload of output [i]. *)
Definition output_amount (i : nat) : Z :=
  read_u128 (snd (host_cell_data env i CKB_SOURCE_OUTPUT)) 0.

(** The amounts of the initialized wrapped-token outputs before index [k],
    in scan order. *)
Fixpoint initialized_amounts (type_hash : list byte) (k : nat) : list Z :=
  match k with
  | O => []
  | S k' =>
      initialized_amounts type_hash k'
      ++ match wckb_output_height env type_hash k' with
         | Some ht => if ht =? 0 then [] else [output_amount k']
         | None => []
         end
  end.

(** The amounts of the uninitialized wrapped-token outputs before index [k]
    whose lock hash is [l], in scan order. *)
Fixpoint uninit_amounts (type_hash l : list byte) (k : nat) : list Z :=
  match k with
  | O => []
  | S k' =>
      uninit_amounts type_hash l k'
      ++ match uninit_lock env type_hash k' with
         | Some v => if bytes_eqb v l then [output_amount k'] else []
         | None => []
         end
  end.

End MoreStatements.

Definition sum (l : list Z) : Z := fold_right Z.add 0 l.

(** Entry [s] of the uninitialized bucket stands for the uninitialized
    wrapped-token outputs before [k] under its lock hash: there is one at
    least, and the amount of [s] is the sum of theirs modulo [2^128]. *)
Definition entry_sums (env : Env) (type_hash : list byte) (k : nat)
    (s : SwapInfo.t) : Prop :=
  uninit_amounts env type_hash (SwapInfo.lock_hash s) k <> []
  /\ SwapInfo.amount s
     = u128 (sum (uninit_amounts env type_hash (SwapInfo.lock_hash s) k)).

(** One entry of the uninitialized bucket is backed by a deposit: what
    lines 472-479 ask of entry [u]. *)
Definition backed
    (deposited_dao : list SwapInfo.t) (deposited_dao_cnt : nat)
    (u : SwapInfo.t) : Prop :=
  exists found d,
    find_swap_by_lock_hash deposited_dao deposited_dao_cnt
      (SwapInfo.lock_hash u) = Some found
    /\ nth_error deposited_dao found = Some d
    /\ SwapInfo.amount u = SwapInfo.amount d.

(** * Properties *)

(** ** Bytes *)

Lemma bytes_eqb_eq (a b : list byte) : bytes_eqb a b = true <-> a = b.
Proof.
  revert b; induction a as [|x a IH]; intros [|y b]; simpl;
    try (split; [discriminate | congruence]); [tauto|].
  rewrite andb_true_iff, IH. split.
  - intros [Hx ->]. apply Byte.byte_dec_bl in Hx. now subst.
  - intros H; injection H as -> ->. split; [apply Byte.byte_dec_lb|]; easy.
Qed.

Lemma bytes_eqb_refl (a : list byte) : bytes_eqb a a = true.
Proof. now apply bytes_eqb_eq. Qed.

Lemma memcmp_eq_full (a b : list byte) (n : nat) :
  length a = n -> length b = n -> memcmp_eq a b n = true <-> a = b.
Proof.
  intros Ha Hb. unfold memcmp_eq.
  rewrite <- Ha at 1. rewrite <- Hb at 1.
  rewrite !firstn_all. apply bytes_eqb_eq.
Qed.

Lemma memcmp_eq_refl (a : list byte) (n : nat) : memcmp_eq a a n = true.
Proof. apply bytes_eqb_refl. Qed.

(** ** Alignment *)

Section Alignment.

Variable env : Env.

(** C1 on the code: when the origin height equals the block number of the
    alignment target, [align_dao] returns [CKB_SUCCESS] and leaves
    [calculated_capacity] as it found it; the amount [A] of the entry does
    not reach the caller. *)
Theorem align_dao_same_height_keeps_previous_capacity
    (i : nat) (src : source) (tgt : dao_header_data_t.t) (A previous : Z) :
  align_dao env i src tgt (dao_header_data_t.block_number tgt) A previous
  = (CKB_SUCCESS, previous).
Proof.
  unfold align_dao. now rewrite Z.eqb_refl.
Qed.

Lemma align_dao_backward
    (i : nat) (src : source) (tgt : dao_header_data_t.t) (H A c : Z) :
  dao_header_data_t.block_number tgt < H ->
  align_dao env i src tgt H A c = (ERROR_ALIGN, c).
Proof.
  intros Hlt. unfold align_dao.
  destruct (Z.eqb_spec (dao_header_data_t.block_number tgt) H); [lia|].
  destruct (Z.ltb_spec (dao_header_data_t.block_number tgt) H); [easy|lia].
Qed.

Lemma align_loop_app
    (src : source) (tgt : dao_header_data_t.t)
    (pre rest : list TokenInfo.t) (i : nat) (c t c' t' : Z) :
  align_loop env src tgt pre i c t = (CKB_SUCCESS, c', t') ->
  align_loop env src tgt (pre ++ rest) i c t
  = align_loop env src tgt rest (i + length pre) c' t'.
Proof.
  revert i c t. induction pre as [|e pre IH]; intros i c t H; simpl in *.
  - injection H as -> ->. now rewrite Nat.add_0_r.
  - destruct (align_dao env i src tgt _ _ c) as [r c1].
    destruct r; simpl in *; try discriminate.
    rewrite (IH _ _ _ H). f_equal. lia.
Qed.

Lemma align_loop_backward
    (src : source) (tgt : dao_header_data_t.t)
    (pre post : list TokenInfo.t) (e : TokenInfo.t) (c0 c t : Z) :
  align_loop env src tgt pre 0 c0 0 = (CKB_SUCCESS, c, t) ->
  dao_header_data_t.block_number tgt < TokenInfo.block_number e ->
  align_loop env src tgt (pre ++ e :: post) 0 c0 0 = (ERROR_ALIGN, c, t).
Proof.
  intros Hpre Hlt. rewrite (align_loop_app _ _ _ _ _ _ _ _ _ Hpre). simpl.
  now rewrite align_dao_backward.
Qed.

End Alignment.

(** ** [main] phase by phase *)

Section Main.

Variable env : Env.
Variable stk : Indeterminate.

Lemma main_after_inputs
    (fuel : nat) (h : list byte) (tgt : dao_header_data_t.t)
    (w iw : list TokenInfo.t) :
  inputs_scanned env stk fuel h tgt w iw ->
  main env stk fuel
  = bind (fetch_outputs env stk fuel h (dao_header_data_t.block_number tgt))
      (fun '(ret, outs) =>
         if negb (is_success ret) then Ret ret
         else Ret (check_equations env stk tgt w iw outs)).
Proof.
  intros (Hh & Hlen & Htgt & Hin).
  unfold main, ckb_load_script_hash, load_dao_header_data.
  assert (Hfull : firstn BLAKE2B_BLOCK_SIZE h = h)
    by (rewrite <- Hlen; apply firstn_all).
  rewrite Hh, Htgt, Hfull, Hlen. simpl. rewrite Hin. reflexivity.
Qed.

Lemma main_after_scans
    (fuel : nat) (h : list byte) (tgt : dao_header_data_t.t)
    (w iw : list TokenInfo.t) (outs : Outputs) :
  scanned env stk fuel h tgt w iw outs ->
  main env stk fuel = Ret (check_equations env stk tgt w iw outs).
Proof.
  intros [Hin Hout]. rewrite (main_after_inputs _ _ _ _ _ Hin), Hout.
  reflexivity.
Qed.

Lemma main_output_error
    (fuel : nat) (h : list byte) (tgt : dao_header_data_t.t)
    (w iw : list TokenInfo.t) (r : retcode) (outs : Outputs) :
  inputs_scanned env stk fuel h tgt w iw ->
  fetch_outputs env stk fuel h (dao_header_data_t.block_number tgt)
  = Ret (r, outs) ->
  is_success r = false ->
  main env stk fuel = Ret r.
Proof.
  intros Hin Hout Hr. rewrite (main_after_inputs _ _ _ _ _ Hin), Hout.
  simpl. now rewrite Hr.
Qed.

(** C7: when the Aligner gets to an entry whose origin height is above the
    block number of the alignment target, [main] returns [ERROR_ALIGN],
    whatever the amount of the entry and whatever the other cells are. *)
Theorem backward_alignment_is_align_error
    (fuel : nat) (h : list byte) (tgt : dao_header_data_t.t)
    (w iw : list TokenInfo.t) (outs : Outputs) (e : TokenInfo.t) :
  scanned env stk fuel h tgt w iw outs ->
  aligner_reaches env stk tgt w iw outs e ->
  dao_header_data_t.block_number tgt < TokenInfo.block_number e ->
  main env stk fuel = Ret ERROR_ALIGN.
Proof.
  intros Hscan Hreach Hlt. rewrite (main_after_scans _ _ _ _ _ _ Hscan).
  f_equal. unfold check_equations.
  destruct Hreach as [pre post c t -> Hpre
                     |pre post c1 t1 c t Hw -> Hpre
                     |pre post c1 t1 c2 t2 c t Hw Hiw Ho Hpre].
  - now rewrite (align_loop_backward _ _ _ _ _ _ _ _ _ Hpre Hlt).
  - rewrite Hw. simpl.
    now rewrite (align_loop_backward _ _ _ _ _ _ _ _ _ Hpre Hlt).
  - rewrite Hw. simpl. rewrite Hiw. simpl. rewrite Ho.
    now rewrite (align_loop_backward _ _ _ _ _ _ _ _ _ Hpre Hlt).
Qed.

End Main.

(** C7 at work: the input WCKB entry carries height 150 and the target is
    block 100. *)
Lemma backward_alignment_witness :
  main (Host.env (Examples.tx_transfer 1000))
       (Examples.stack_with_height 150 0) 5 = Ret ERROR_ALIGN.
Proof.
  apply (backward_alignment_is_align_error
           (Host.env (Examples.tx_transfer 1000))
           (Examples.stack_with_height 150 0) 5 Examples.SELF
           (Examples.header_at 100) []
           [TokenInfo.mk 150 1000]
           {| deposited_dao := []; deposited_dao_cnt := 0;
              uninitialized_wckb := [];
              initialized_wckb := [TokenInfo.mk 100 1000] |}
           (TokenInfo.mk 150 1000)).
  - repeat split; vm_compute; reflexivity.
  - apply (reaches_input _ _ _ _ _ _ _ [] [] 0 0 0 0); reflexivity.
  - simpl. lia.
Defined.

(** ** The output scan *)

Lemma load_into_full (buf d : list byte) (cap : nat) :
  length d = cap -> load_into buf cap d = d.
Proof.
  intros Hd. unfold load_into. rewrite <- Hd at 1 2. rewrite firstn_all.
  rewrite skipn_all2; [apply app_nil_r|].
  rewrite length_firstn. lia.
Qed.

Lemma checked_load_fits (env : Env) (cap i : nat) (src : source) (f : field)
    (v : list byte) :
  host_cell_field env i src f = (CKB_SUCCESS, v) ->
  (length v <= cap)%nat ->
  ckb_checked_load_cell_by_field env cap i src f
  = (CKB_SUCCESS, length v, v).
Proof.
  intros Hv Hle. unfold ckb_checked_load_cell_by_field. rewrite Hv.
  destruct (Nat.ltb_spec cap (length v)); [lia|reflexivity].
Qed.

Lemma load_cell_data_full (env : Env) (stk : Indeterminate)
    (i : nat) (src : source) (d : list byte) :
  host_cell_data env i src = (CKB_SUCCESS, d) ->
  length d = (UDT_LEN + BLOCK_NUM_LEN)%nat ->
  ckb_load_cell_data env stk i src = (CKB_SUCCESS, length d, d).
Proof.
  intros Hd Hlen. unfold ckb_load_cell_data. rewrite Hd.
  now rewrite load_into_full.
Qed.

Section OutputScan.

Variable env : Env.
Variable stk : Indeterminate.
Variable h : list byte.
Variable a : Z.

Hypothesis h_len : length h = BLAKE2B_BLOCK_SIZE.

(** What [wckb_output_height] says in terms of the host. *)
Lemma wckb_output_height_inv (i : nat) (ht : Z) :
  wckb_output_height env h i = Some ht ->
  exists d,
    host_cell_field env i CKB_SOURCE_OUTPUT CKB_CELL_FIELD_TYPE_HASH
    = (CKB_SUCCESS, h)
    /\ host_cell_data env i CKB_SOURCE_OUTPUT = (CKB_SUCCESS, d)
    /\ length d = (UDT_LEN + BLOCK_NUM_LEN)%nat
    /\ read_u64 d UDT_LEN = ht.
Proof.
  unfold wckb_output_height, output_type_is. intros H.
  destruct (host_cell_field env i CKB_SOURCE_OUTPUT CKB_CELL_FIELD_TYPE_HASH)
    as [r v].
  destruct r; try discriminate.
  destruct (bytes_eqb v h) eqn:Hv; [|discriminate].
  apply bytes_eqb_eq in Hv. subst v.
  destruct (host_cell_data env i CKB_SOURCE_OUTPUT) as [r d].
  destruct r; try discriminate.
  destruct (Nat.eqb_spec (length d) (UDT_LEN + BLOCK_NUM_LEN));
    [|discriminate].
  injection H as <-. now exists d.
Qed.

(** The body of the loop at a wrapped-token cell with a 24-byte payload,
    up to the test of the height. *)
Lemma output_cell_wckb (i p : nat) (st : Outputs) (d : list byte) :
  host_cell_field env i CKB_SOURCE_OUTPUT CKB_CELL_FIELD_TYPE_HASH
  = (CKB_SUCCESS, h) ->
  host_cell_data env i CKB_SOURCE_OUTPUT = (CKB_SUCCESS, d) ->
  length d = (UDT_LEN + BLOCK_NUM_LEN)%nat ->
  read_u64 d UDT_LEN <> 0 ->
  output_cell env stk h a i p st
  = if negb (read_u64 d UDT_LEN =? a) then Ret (Break ERROR_OUTPUT_ALIGN)
    else
      match find_token_by_block_number (initialized_wckb st)
              (length (initialized_wckb st)) (read_u64 d UDT_LEN) with
      | Some found =>
          Ret (Continue (p,
            {| deposited_dao := deposited_dao st;
               deposited_dao_cnt := deposited_dao_cnt st;
               uninitialized_wckb := uninitialized_wckb st;
               initialized_wckb :=
                 token_add_amount (initialized_wckb st) found
                   (read_u128 d 0) |}))
      | None =>
          if (MAX_SWAPS <=? length (initialized_wckb st))%nat
          then Ret (Break ERROR_TOO_MANY_SWAPS)
          else Ret (Continue (p,
            {| deposited_dao := deposited_dao st;
               deposited_dao_cnt := deposited_dao_cnt st;
               uninitialized_wckb := uninitialized_wckb st;
               initialized_wckb :=
                 initialized_wckb st
                   ++ [TokenInfo.mk (read_u64 d UDT_LEN) (read_u128 d 0)] |}))
      end.
Proof.
  intros Hty Hd Hlen Hnz. unfold output_cell.
  rewrite (checked_load_fits _ _ _ _ _ _ Hty)
    by (rewrite h_len; apply Nat.le_refl).
  rewrite (load_cell_data_full _ _ _ _ _ Hd Hlen).
  rewrite h_len, Hlen. cbn [Nat.eqb negb BLAKE2B_BLOCK_SIZE].
  replace (UDT_LEN + BLOCK_NUM_LEN <? UDT_LEN + BLOCK_NUM_LEN)%nat
    with false by reflexivity.
  replace (is_dao_deposit_cell h d (UDT_LEN + BLOCK_NUM_LEN)) with false
    by (unfold is_dao_deposit_cell; cbn; now rewrite andb_false_r).
  rewrite memcmp_eq_refl.
  replace (UDT_LEN + BLOCK_NUM_LEN =? UDT_LEN + BLOCK_NUM_LEN)%nat
    with true by reflexivity.
  cbn [negb].
  destruct (Z.eqb_spec (read_u64 d UDT_LEN) 0); [contradiction|].
  reflexivity.
Qed.

(** What [uninit_lock] says in terms of the host. *)
Lemma uninit_lock_inv (i : nat) (l : list byte) :
  uninit_lock env h i = Some l ->
  exists d,
    host_cell_field env i CKB_SOURCE_OUTPUT CKB_CELL_FIELD_TYPE_HASH
    = (CKB_SUCCESS, h)
    /\ host_cell_data env i CKB_SOURCE_OUTPUT = (CKB_SUCCESS, d)
    /\ length d = (UDT_LEN + BLOCK_NUM_LEN)%nat
    /\ read_u64 d UDT_LEN = 0
    /\ host_cell_field env i CKB_SOURCE_OUTPUT CKB_CELL_FIELD_LOCK_HASH
       = (CKB_SUCCESS, l)
    /\ length l = BLAKE2B_BLOCK_SIZE.
Proof.
  unfold uninit_lock. intros H.
  destruct (wckb_output_height env h i) as [ht|] eqn:Hht; [|discriminate].
  destruct ht; try discriminate.
  destruct (wckb_output_height_inv _ _ Hht) as (d & Hty & Hd & Hlen & Hz).
  destruct (host_cell_field env i CKB_SOURCE_OUTPUT CKB_CELL_FIELD_LOCK_HASH)
    as [r v].
  destruct r; try discriminate.
  destruct (Nat.eqb_spec (length v) BLAKE2B_BLOCK_SIZE); [|discriminate].
  injection H as <-. now exists d.
Qed.

(** The body of the loop at an uninitialized wrapped-token cell. *)
Lemma output_cell_uninit (i p : nat) (st : Outputs) (l : list byte) :
  uninit_lock env h i = Some l ->
  exists amount,
  output_cell env stk h a i p st
  = match find_swap_by_lock_hash (uninitialized_wckb st)
            (length (uninitialized_wckb st)) l with
    | Some found =>
        Ret (Continue (p,
          {| deposited_dao := deposited_dao st;
             deposited_dao_cnt := deposited_dao_cnt st;
             uninitialized_wckb :=
               swap_add_amount (uninitialized_wckb st) found amount;
             initialized_wckb := initialized_wckb st |}))
    | None =>
        if (MAX_SWAPS <=? length (uninitialized_wckb st))%nat
        then Ret (Break ERROR_TOO_MANY_SWAPS)
        else Ret (Continue (p,
          {| deposited_dao := deposited_dao st;
             deposited_dao_cnt := deposited_dao_cnt st;
             uninitialized_wckb :=
               uninitialized_wckb st ++ [SwapInfo.mk l amount];
             initialized_wckb := initialized_wckb st |}))
    end.
Proof.
  intros Hl.
  destruct (uninit_lock_inv _ _ Hl) as (d & Hty & Hd & Hlen & Hz & Hlk & Hll).
  exists (read_u128 d 0). unfold output_cell.
  rewrite (checked_load_fits _ _ _ _ _ _ Hty)
    by (rewrite h_len; apply Nat.le_refl).
  rewrite (load_cell_data_full _ _ _ _ _ Hd Hlen).
  rewrite (checked_load_fits _ _ _ _ _ _ Hlk)
    by (rewrite Hll; apply Nat.le_refl).
  rewrite h_len, Hlen, Hll, Hz. cbn [Nat.eqb negb BLAKE2B_BLOCK_SIZE].
  replace (UDT_LEN + BLOCK_NUM_LEN <? UDT_LEN + BLOCK_NUM_LEN)%nat
    with false by reflexivity.
  replace (is_dao_deposit_cell h d (UDT_LEN + BLOCK_NUM_LEN)) with false
    by (unfold is_dao_deposit_cell; cbn; now rewrite andb_false_r).
  rewrite memcmp_eq_refl.
  replace (UDT_LEN + BLOCK_NUM_LEN =? UDT_LEN + BLOCK_NUM_LEN)%nat
    with true by reflexivity.
  reflexivity.
Qed.

(** The loop started afresh with [k] more units of fuel is the loop
    resumed at index [k], when the scan gets that far. *)
Lemma fetch_outputs_loop_resume (k p : nat) (st : Outputs) (fuel : nat) :
  outputs_prefix env stk h a k = Some (p, st) ->
  fetch_outputs_loop env stk (k + fuel) h a 0 0 no_outputs
  = fetch_outputs_loop env stk fuel h a k p st.
Proof.
  revert p st fuel. induction k as [|k IH]; intros p st fuel H.
  - now injection H as <- <-.
  - simpl in H.
    destruct (outputs_prefix env stk h a k) as [[p0 st0]|]; [|discriminate].
    destruct (output_cell env stk h a k p0 st0) as [[r|s]| |] eqn:Hcell;
      try discriminate.
    destruct (int_incr k) as [k'| |] eqn:Hk; try discriminate.
    injection H as ->.
    replace (S k + fuel)%nat with (k + S fuel)%nat by lia.
    rewrite (IH p0 st0 (S fuel) eq_refl). simpl. rewrite Hcell. simpl.
    rewrite Hk. simpl. unfold int_incr in Hk.
    destruct (Z.of_nat k <? INT_MAX); [|discriminate].
    now injection Hk as <-.
Qed.

(** A [Break] at index [k] is what [fetch_outputs] returns. *)
Lemma fetch_outputs_break (k p : nat) (st : Outputs) (r : retcode)
    (fuel : nat) :
  outputs_prefix env stk h a k = Some (p, st) ->
  output_cell env stk h a k p st = Ret (Break r) ->
  (k < fuel)%nat ->
  fetch_outputs env stk fuel h a = Ret (r, st).
Proof.
  intros Hk Hcell Hlt. unfold fetch_outputs.
  replace fuel with (k + S (fuel - S k))%nat by lia.
  rewrite (fetch_outputs_loop_resume _ _ _ _ Hk). simpl.
  now rewrite Hcell.
Qed.

End OutputScan.

Section OutputInvariants.

Variable env : Env.
Variable stk : Indeterminate.
Variable h : list byte.
Variable a : Z.

Lemma token_add_amount_length (l : list TokenInfo.t) (j : nat) (x : Z) :
  length (token_add_amount l j x) = length l.
Proof.
  revert j; induction l as [|t l IH]; intros [|j]; simpl; auto.
Qed.

Lemma token_add_amount_heights (l : list TokenInfo.t) (j : nat) (x : Z) :
  map TokenInfo.block_number (token_add_amount l j x)
  = map TokenInfo.block_number l.
Proof.
  revert j; induction l as [|t l IH]; intros [|j]; simpl; auto.
  now rewrite IH.
Qed.

Lemma one_height_add (l : list TokenInfo.t) (j : nat) (x : Z) :
  one_height a l -> one_height a (token_add_amount l j x).
Proof.
  intros [Hlen Hall]. split.
  - now rewrite token_add_amount_length.
  - rewrite Forall_forall in *. intros t Ht.
    apply (in_map TokenInfo.block_number) in Ht.
    rewrite token_add_amount_heights in Ht.
    apply in_map_iff in Ht. destruct Ht as (t' & Heq & Ht').
    rewrite <- Heq. now apply Hall.
Qed.

Lemma find_token_from_none (l : list TokenInfo.t) (j : nat) (b : Z) :
  find_token_from l j b = None ->
  Forall (fun t => TokenInfo.block_number t <> b) l.
Proof.
  revert j; induction l as [|t l IH]; intros j H; simpl in *; [constructor|].
  destruct (Z.eqb_spec (TokenInfo.block_number t) b); [discriminate|].
  constructor; eauto.
Qed.

Lemma one_height_append (l : list TokenInfo.t) (b x : Z) :
  negb (b =? a) = false ->
  find_token_by_block_number l (length l) b = None ->
  one_height a l -> one_height a (l ++ [TokenInfo.mk b x]).
Proof.
  intros Hb Hfind [Hlen Hall].
  apply negb_false_iff, Z.eqb_eq in Hb. subst b.
  unfold find_token_by_block_number in Hfind. rewrite firstn_all in Hfind.
  apply find_token_from_none in Hfind.
  destruct l as [|t l].
  - split; simpl; [lia|]. repeat constructor.
  - exfalso. inversion Hall; subst. inversion Hfind; subst. contradiction.
Qed.

Lemma output_cell_one_height (i p p' : nat) (st st' : Outputs) :
  output_cell env stk h a i p st = Ret (Continue (p', st')) ->
  one_height a (initialized_wckb st) -> one_height a (initialized_wckb st').
Proof.
  intros H Hinv. unfold output_cell, bind, deref_cnt in H.
  break_match_in H; injection H as <- <-; simpl;
    first [ assumption
          | now apply one_height_add
          | eapply one_height_append; eassumption ].
Qed.

Lemma fetch_outputs_loop_one_height
    (fuel i p : nat) (st : Outputs) (r : retcode) (outs : Outputs) :
  fetch_outputs_loop env stk fuel h a i p st = Ret (r, outs) ->
  one_height a (initialized_wckb st) -> one_height a (initialized_wckb outs).
Proof.
  revert i p st. induction fuel as [|fuel IH]; intros i p st H Hinv;
    simpl in H; [discriminate|].
  destruct (output_cell env stk h a i p st) as [[r0|[p' st']]| |] eqn:Hcell;
    simpl in H; try discriminate.
  - now injection H as <- <-.
  - destruct (int_incr i) as [i'| |]; simpl in H; try discriminate.
    eapply IH; [eassumption|]. eapply output_cell_one_height; eassumption.
Qed.

End OutputInvariants.



(** C8: when the output scan gets to a wrapped-token cell with a 24-byte
    payload whose height is neither 0 nor the block number of the alignment
    target, [main] returns [ERROR_OUTPUT_ALIGN]. *)
Theorem misaligned_output_is_output_align_error
    (env : Env) (stk : Indeterminate) (fuel : nat) (h : list byte)
    (tgt : dao_header_data_t.t) (w iw : list TokenInfo.t)
    (i p : nat) (st : Outputs) (height : Z) :
  inputs_scanned env stk fuel h tgt w iw ->
  outputs_prefix env stk h (dao_header_data_t.block_number tgt) i
  = Some (p, st) ->
  wckb_output_height env h i = Some height ->
  height <> 0 ->
  height <> dao_header_data_t.block_number tgt ->
  (i < fuel)%nat ->
  main env stk fuel = Ret ERROR_OUTPUT_ALIGN.
Proof.
  intros Hin Hpre Hcell Hnz Hne Hfuel.
  assert (Hlen : length h = BLAKE2B_BLOCK_SIZE) by apply Hin.
  destruct (wckb_output_height_inv _ _ _ _ Hcell) as (d & Hty & Hd & Hdl & Hht).
  apply (main_output_error env stk fuel h tgt w iw ERROR_OUTPUT_ALIGN st Hin);
    [|reflexivity].
  eapply fetch_outputs_break; try eassumption.
  erewrite output_cell_wckb; try eassumption;
    [|rewrite Hht; assumption].
  rewrite Hht.
  destruct (Z.eqb_spec height (dao_header_data_t.block_number tgt));
    [contradiction|reflexivity].
Qed.

(** C8 at work, Scenario C: the output is at height 100 and the target is
    block 150. *)
Lemma misaligned_output_witness :
  main (Host.env Examples.tx_scenario_C) (Examples.zero_stack 0) 5
  = Ret ERROR_OUTPUT_ALIGN.
Proof.
  apply (misaligned_output_is_output_align_error
           (Host.env Examples.tx_scenario_C) (Examples.zero_stack 0) 5
           Examples.SELF (Examples.header_at 150) []
           [TokenInfo.mk 0 1000] 0 0 no_outputs 100).
  - repeat split; vm_compute; reflexivity.
  - reflexivity.
  - vm_compute. reflexivity.
  - lia.
  - simpl. lia.
  - lia.
Defined.

Section UninitBucket.

Variable env : Env.
Variable stk : Indeterminate.
Variable h : list byte.
Variable a : Z.

Lemma swap_add_amount_length (l : list SwapInfo.t) (j : nat) (x : Z) :
  length (swap_add_amount l j x) = length l.
Proof.
  revert j; induction l as [|t l IH]; intros [|j]; simpl; auto.
Qed.

Lemma swap_add_amount_locks (l : list SwapInfo.t) (j : nat) (x : Z) :
  locks (swap_add_amount l j x) = locks l.
Proof.
  revert j; induction l as [|t l IH]; intros [|j]; simpl; auto.
  now rewrite IH.
Qed.

Lemma well_locked_add (l : list SwapInfo.t) (j : nat) (x : Z) :
  well_locked l ->
  well_locked (swap_add_amount l j x)
  /\ incl (locks l) (locks (swap_add_amount l j x)).
Proof.
  intros [Hlen Hall]. rewrite swap_add_amount_locks. repeat split.
  - now rewrite swap_add_amount_length.
  - rewrite Forall_forall in *. intros s Hs.
    apply (in_map SwapInfo.lock_hash) in Hs.
    fold (locks (swap_add_amount l j x)) in Hs.
    rewrite swap_add_amount_locks in Hs.
    apply in_map_iff in Hs. destruct Hs as (s' & Heq & Hs').
    rewrite <- Heq. now apply Hall.
  - apply incl_refl.
Qed.

Lemma checked_load_length (cap i n : nat) (src : source) (f : field)
    (v : list byte) :
  ckb_checked_load_cell_by_field env cap i src f = (CKB_SUCCESS, n, v) ->
  n = length v.
Proof.
  unfold ckb_checked_load_cell_by_field.
  destruct (host_cell_field env i src f) as [r x].
  destruct r; try discriminate.
  destruct (cap <? length x)%nat; [discriminate|].
  now intros [= <- <-].
Qed.

Lemma well_locked_append (l : list SwapInfo.t) (i n : nat) (v : list byte)
    (x : Z) :
  ckb_checked_load_cell_by_field env BLAKE2B_BLOCK_SIZE i CKB_SOURCE_OUTPUT
    CKB_CELL_FIELD_LOCK_HASH = (CKB_SUCCESS, n, v) ->
  negb (n =? BLAKE2B_BLOCK_SIZE)%nat = false ->
  (MAX_SWAPS <=? length l)%nat = false ->
  well_locked l ->
  well_locked (l ++ [SwapInfo.mk v x])
  /\ incl (locks l) (locks (l ++ [SwapInfo.mk v x])).
Proof.
  intros Hload Hn Hcap [Hlen Hall].
  apply checked_load_length in Hload. subst n.
  apply negb_false_iff, Nat.eqb_eq in Hn.
  apply Nat.leb_gt in Hcap.
  repeat split.
  - rewrite length_app. simpl. lia.
  - apply Forall_app. split; [assumption|]. now repeat constructor.
  - unfold locks. rewrite map_app. now apply incl_appl, incl_refl.
Qed.

Lemma output_cell_well_locked (i p p' : nat) (st st' : Outputs) :
  output_cell env stk h a i p st = Ret (Continue (p', st')) ->
  well_locked (uninitialized_wckb st) ->
  well_locked (uninitialized_wckb st')
  /\ incl (locks (uninitialized_wckb st)) (locks (uninitialized_wckb st')).
Proof.
  intros H Hinv. unfold output_cell, bind, deref_cnt in H.
  break_match_in H; injection H as <- <-; simpl;
    try (split; [assumption|apply incl_refl]).
  - now apply well_locked_add.
  - eapply well_locked_append; eassumption.
Qed.

Lemma find_swap_from_some (l : list SwapInfo.t) (j k : nat) (v : list byte) :
  find_swap_from l j v = Some k ->
  exists s, In s l
            /\ memcmp_eq (SwapInfo.lock_hash s) v BLAKE2B_BLOCK_SIZE = true.
Proof.
  revert j; induction l as [|s l IH]; intros j H; simpl in H; [discriminate|].
  destruct (memcmp_eq (SwapInfo.lock_hash s) v BLAKE2B_BLOCK_SIZE) eqn:E.
  - exists s. split; [now left|assumption].
  - destruct (IH _ H) as (s' & Hin & Hs'). exists s'. split; [now right|easy].
Qed.

Lemma find_swap_from_none (l : list SwapInfo.t) (j : nat) (v : list byte) :
  find_swap_from l j v = None -> ~ In v (locks l).
Proof.
  revert j; induction l as [|s l IH]; intros j H; simpl in *; [tauto|].
  destruct (memcmp_eq (SwapInfo.lock_hash s) v BLAKE2B_BLOCK_SIZE) eqn:E;
    [discriminate|].
  intros [Heq|Hin].
  - rewrite Heq, memcmp_eq_refl in E. discriminate.
  - exact (IH _ H Hin).
Qed.

(** A lookup that succeeds for a 32-byte lock hash found that very hash. *)
Lemma find_swap_some_in (l : list SwapInfo.t) (k : nat) (v : list byte) :
  well_locked l ->
  length v = BLAKE2B_BLOCK_SIZE ->
  find_swap_by_lock_hash l (length l) v = Some k ->
  In v (locks l).
Proof.
  intros [_ Hall] Hv H. unfold find_swap_by_lock_hash in H.
  rewrite firstn_all in H.
  destruct (find_swap_from_some _ _ _ _ H) as (s & Hin & Hs).
  rewrite Forall_forall in Hall.
  apply memcmp_eq_full in Hs; [|now apply Hall|assumption].
  subst v. now apply in_map.
Qed.

Hypothesis h_len : length h = BLAKE2B_BLOCK_SIZE.

(** After the body of the loop ran over an uninitialized wrapped-token
    cell, the lock hash of the cell is in the bucket. *)
Lemma output_cell_records_lock (i p p' : nat) (st st' : Outputs)
    (v : list byte) :
  output_cell env stk h a i p st = Ret (Continue (p', st')) ->
  uninit_lock env h i = Some v ->
  well_locked (uninitialized_wckb st) ->
  In v (locks (uninitialized_wckb st')).
Proof.
  intros H Hv Hinv.
  destruct (uninit_lock_inv _ _ _ _ Hv) as (_ & _ & _ & _ & _ & _ & Hlen).
  destruct (output_cell_uninit env stk h a h_len i p st v Hv) as [x Hx].
  rewrite Hx in H. clear Hx.
  destruct (find_swap_by_lock_hash _ _ v) as [k|] eqn:Hfind.
  - injection H as <- <-. simpl. rewrite swap_add_amount_locks.
    eapply find_swap_some_in; eassumption.
  - destruct (MAX_SWAPS <=? _)%nat; [discriminate|].
    injection H as <- <-. simpl. unfold locks. rewrite map_app.
    apply in_or_app. right. now left.
Qed.

(** When the scan gets to index [k], the bucket of uninitialized tokens is
    within its capacity and holds the lock hash of every uninitialized
    wrapped-token cell before [k]. *)
Lemma outputs_prefix_locks (k p : nat) (st : Outputs) :
  outputs_prefix env stk h a k = Some (p, st) ->
  well_locked (uninitialized_wckb st)
  /\ forall j v, (j < k)%nat -> uninit_lock env h j = Some v ->
                 In v (locks (uninitialized_wckb st)).
Proof.
  revert p st. induction k as [|k IH]; intros p st H; simpl in H.
  - injection H as <- <-. split; [|intros; lia].
    split; simpl; [unfold MAX_SWAPS; lia|constructor].
  - destruct (outputs_prefix env stk h a k) as [[p0 st0]|]; [|discriminate].
    destruct (IH _ _ eq_refl) as [Hwl Hseen].
    destruct (output_cell env stk h a k p0 st0) as [[r|[p1 st1]]| |] eqn:Hcell;
      try discriminate.
    destruct (int_incr k); try discriminate.
    injection H as <- <-.
    destruct (output_cell_well_locked _ _ _ _ _ Hcell Hwl) as [Hwl' Hincl].
    split; [assumption|]. intros j v Hj Hv.
    destruct (Nat.eq_dec j k) as [->|Hne].
    + eapply output_cell_records_lock; eassumption.
    + apply Hincl, (Hseen j v); [lia|assumption].
Qed.

End UninitBucket.

Lemma existsb_bytes_eqb_false (x : list byte) (l : list (list byte)) :
  existsb (bytes_eqb x) l = false -> ~ In x l.
Proof.
  intros H Hin. assert (existsb (bytes_eqb x) l = true); [|congruence].
  apply existsb_exists. exists x. split; [assumption|apply bytes_eqb_refl].
Qed.

Lemma distinctb_NoDup (l : list (list byte)) : distinctb l = true -> NoDup l.
Proof.
  induction l as [|x l IH]; simpl; intros H; constructor;
    apply andb_true_iff in H; destruct H as [Hx Hl].
  - apply existsb_bytes_eqb_false. now apply negb_true_iff.
  - now apply IH.
Qed.

(** C9: when the output scan gets to an uninitialized wrapped-token cell
    whose lock hash is the 257th distinct one among the uninitialized
    wrapped-token cells met so far, [main] returns [ERROR_TOO_MANY_SWAPS]. *)
Theorem too_many_uninitialized_locks
    (env : Env) (stk : Indeterminate) (fuel : nat) (h : list byte)
    (tgt : dao_header_data_t.t) (w iw : list TokenInfo.t)
    (i p : nat) (st : Outputs) (ls : list (list byte)) (v : list byte) :
  inputs_scanned env stk fuel h tgt w iw ->
  outputs_prefix env stk h (dao_header_data_t.block_number tgt) i
  = Some (p, st) ->
  length ls = MAX_SWAPS ->
  NoDup ls ->
  (forall u, In u ls ->
             exists j, (j < i)%nat /\ uninit_lock env h j = Some u) ->
  uninit_lock env h i = Some v ->
  ~ In v ls ->
  (i < fuel)%nat ->
  main env stk fuel = Ret ERROR_TOO_MANY_SWAPS.
Proof.
  intros Hin Hpre Hls Hnd Hcells Hv Hnew Hfuel.
  assert (Hlen : length h = BLAKE2B_BLOCK_SIZE) by apply Hin.
  destruct (outputs_prefix_locks _ _ _ _ Hlen _ _ _ Hpre) as [Hwl Hseen].
  assert (Hincl : incl ls (locks (uninitialized_wckb st))).
  { intros u Hu. destruct (Hcells u Hu) as (j & Hj & Hju). eauto. }
  assert (Hge : (MAX_SWAPS <= length (uninitialized_wckb st))%nat).
  { rewrite <- Hls. unfold locks in Hincl.
    rewrite <- (length_map SwapInfo.lock_hash). now apply NoDup_incl_length. }
  apply (main_output_error env stk fuel h tgt w iw ERROR_TOO_MANY_SWAPS st Hin);
    [|reflexivity].
  eapply fetch_outputs_break; try eassumption.
  destruct (output_cell_uninit env stk h (dao_header_data_t.block_number tgt)
              Hlen i p st v Hv) as [x ->].
  destruct (find_swap_by_lock_hash _ _ v) as [k|] eqn:Hfind.
  - exfalso.
    destruct (uninit_lock_inv _ _ _ _ Hv) as (_ & _ & _ & _ & _ & _ & Hvl).
    assert (Hvin : In v (locks (uninitialized_wckb st)))
      by (eapply find_swap_some_in; eassumption).
    assert (Hbig : (length (v :: ls)
                    <= length (locks (uninitialized_wckb st)))%nat).
    { apply NoDup_incl_length; [now constructor|].
      intros u [<-|Hu]; [assumption|now apply Hincl]. }
    unfold locks in Hbig. rewrite length_map in Hbig. simpl in Hbig.
    destruct Hwl as [Hcap _]. lia.
  - apply Nat.leb_le in Hge. now rewrite Hge.
Qed.

(** C9 at work, Scenario D: 257 uninitialized outputs under 257 lock
    hashes. *)
Lemma too_many_uninitialized_locks_witness :
  main (Host.env Examples.tx_many_locks) (Examples.zero_stack 0) 300
  = Ret ERROR_TOO_MANY_SWAPS.
Proof.
  eapply (too_many_uninitialized_locks
            (Host.env Examples.tx_many_locks) (Examples.zero_stack 0) 300
            Examples.SELF (Examples.header_at 100) []
            [TokenInfo.mk 0 1000] 256 _ _
            (map (fun j => Host.le_encode 32 (Z.of_nat j)) (seq 0 256))
            (Host.le_encode 32 256)).
  - repeat split; vm_compute; reflexivity.
  - vm_compute. reflexivity.
  - vm_compute. reflexivity.
  - apply distinctb_NoDup. vm_compute. reflexivity.
  - intros u Hu. apply in_map_iff in Hu. destruct Hu as (j & <- & Hj).
    exists j. split; [apply in_seq in Hj; lia|].
    assert (Hall : forallb
              (fun j => match uninit_lock (Host.env Examples.tx_many_locks)
                                Examples.SELF j with
                        | Some u => bytes_eqb u (Host.le_encode 32 (Z.of_nat j))
                        | None => false
                        end) (seq 0 256) = true)
      by (vm_compute; reflexivity).
    rewrite forallb_forall in Hall. specialize (Hall j Hj).
    destruct (uninit_lock _ _ j) as [u|]; [|discriminate].
    apply bytes_eqb_eq in Hall. now subst u.
  - vm_compute. reflexivity.
  - apply existsb_bytes_eqb_false. vm_compute. reflexivity.
  - lia.
Defined.

(** ** The equations *)

Lemma equation_2_codes (dd : list SwapInfo.t) (cnt : nat)
    (uw : list SwapInfo.t) :
  equation_2 dd cnt uw = CKB_SUCCESS
  \/ equation_2 dd cnt uw = ERROR_INCORRECT_UNINIT_OUTPUT_WCKB.
Proof.
  induction uw as [|u uw IH]; simpl; [now left|].
  destruct (find_swap_by_lock_hash dd cnt (SwapInfo.lock_hash u)); [|now right].
  destruct (nth_error dd n); [|now right].
  destruct (negb _); [now right|assumption].
Qed.

Lemma u64_underflow (x y : Z) :
  0 <= x -> x < y -> y < UINT64_MOD -> u64 (x - y) = UINT64_MOD - (y - x).
Proof.
  intros Hx Hxy Hy. unfold u64.
  replace (x - y) with ((UINT64_MOD - (y - x)) + (-1) * UINT64_MOD) by ring.
  rewrite Z.mod_add by (unfold UINT64_MOD; lia).
  apply Z.mod_small. lia.
Qed.

(** The totals that [main] hands to the equations are [uint64_t] values. *)
Lemma align_loop_total_range
    (env : Env) (src : source) (tgt : dao_header_data_t.t)
    (infos : list TokenInfo.t) (i : nat) (c0 t0 : Z) (r : retcode) (c t : Z) :
  0 <= t0 < UINT64_MOD ->
  align_loop env src tgt infos i c0 t0 = (r, c, t) ->
  0 <= t < UINT64_MOD.
Proof.
  revert i c0 t0. induction infos as [|e infos IH]; intros i c0 t0 Ht0 H;
    simpl in H.
  - now injection H as <- <- <-.
  - destruct (align_dao env i src tgt _ _ c0) as [r1 c1].
    destruct (negb (is_success r1)).
    + now injection H as <- <- <-.
    + apply (IH _ _ _ (Z.mod_pos_bound _ UINT64_MOD eq_refl) H).
Qed.

(** Once the scans and the three alignment loops went through, [main]
    returns what the equations say about the three totals. *)
Lemma main_checks_totals
    (env : Env) (stk : Indeterminate) (fuel : nat) (h : list byte)
    (tgt : dao_header_data_t.t) (w iw : list TokenInfo.t) (outs : Outputs)
    (c1 c2 c3 total_withdraw_dao total_input_wckb total_output_wckb : Z) :
  scanned env stk fuel h tgt w iw outs ->
  align_loop env CKB_SOURCE_INPUT tgt w 0 (stack_calculated_capacity stk) 0
  = (CKB_SUCCESS, c1, total_withdraw_dao) ->
  align_loop env CKB_SOURCE_INPUT tgt iw 0 c1 0
  = (CKB_SUCCESS, c2, total_input_wckb) ->
  align_loop env CKB_SOURCE_OUTPUT tgt (initialized_wckb outs) 0 c2 0
  = (CKB_SUCCESS, c3, total_output_wckb) ->
  main env stk fuel
  = Ret (check_totals total_input_wckb total_withdraw_dao
           total_output_wckb outs)
  /\ 0 <= total_input_wckb < UINT64_MOD
  /\ 0 <= total_withdraw_dao < UINT64_MOD
  /\ 0 <= total_output_wckb < UINT64_MOD.
Proof.
  intros Hscan Hw Hiw Ho.
  assert (H0 : 0 <= 0 < UINT64_MOD) by (unfold UINT64_MOD; lia).
  repeat split;
    try (eapply align_loop_total_range; [exact H0|eassumption]).
  rewrite (main_after_scans _ _ _ _ _ _ _ _ Hscan). unfold check_equations.
  rewrite Hw. cbn [is_success negb]. rewrite Hiw. cbn [is_success negb].
  rewrite Ho. reflexivity.
Qed.

(** C2 does not hold as stated: with no input tokens, a withdrawn total of 1
    and an output total of [2^64 - 1], the subtraction of line 465 wraps to
    the output total and the run is accepted. *)
Lemma equation_1_underflow_accepted :
  0 < 1 /\ check_totals 0 1 (UINT64_MOD - 1) no_outputs = CKB_SUCCESS.
Proof.
  split; [lia|reflexivity].
Qed.

(** C2 as amended: when the aligned withdrawn total exceeds the aligned
    input total, the run is rejected with [ERROR_INCORRECT_OUTPUT_WCKB] for
    every output total but one, [2^64 - (withdrawn - input)], the value the
    64-bit subtraction wraps to. *)
Theorem equation_1_underflow_wraps
    (total_input_wckb total_withdraw_dao total_output_wckb : Z)
    (outs : Outputs) :
  0 <= total_input_wckb ->
  total_input_wckb < total_withdraw_dao ->
  total_withdraw_dao < UINT64_MOD ->
  check_totals total_input_wckb total_withdraw_dao total_output_wckb outs
  = ERROR_INCORRECT_OUTPUT_WCKB
  <-> total_output_wckb
      <> UINT64_MOD - (total_withdraw_dao - total_input_wckb).
Proof.
  intros H0 Hlt Hmax. unfold check_totals, equation_1.
  rewrite (u64_underflow _ _ H0 Hlt Hmax).
  destruct (Z.eqb_spec (UINT64_MOD - (total_withdraw_dao - total_input_wckb))
              total_output_wckb) as [He|Hne]; cbn [negb].
  - split; [|congruence]. intros H2.
    destruct (equation_2_codes (deposited_dao outs) (deposited_dao_cnt outs)
                (uninitialized_wckb outs)) as [E|E];
      rewrite E in H2; discriminate.
  - split; [congruence|reflexivity].
Qed.

Lemma equation_1_underflow_witness :
  check_totals 0 1 5 no_outputs = ERROR_INCORRECT_OUTPUT_WCKB
  <-> 5 <> UINT64_MOD - (1 - 0).
Proof.
  apply (equation_1_underflow_wraps 0 1 5 no_outputs);
    unfold UINT64_MOD; lia.
Defined.

(** ** Runs of the script on the transactions above *)

(** C1, seen from [main]: the input holds 1000 tokens at the target
    height, the output claims 5 at the same height, and the run is
    accepted: the total of the outputs is the capacity left over from the
    alignment of the input. *)
Lemma transfer_ignores_output_amount :
  main (Host.env (Examples.tx_transfer 5)) (Examples.zero_stack 0) 5
  = Ret CKB_SUCCESS
  /\ main (Host.env (Examples.tx_transfer 5))
          (Examples.stack_with_height 100 0) 5
     = Ret CKB_SUCCESS.
Proof.
  split; vm_compute; reflexivity.
Qed.

(** C3 on the code, Scenario B with a balanced equation 1: the deposit of
    500 under [LOCK] is written to slot 0 of the deposited-dao array, the
    counter of [main] stays 0, and the uninitialized output of 500 under
    [LOCK] finds no deposit. *)
Theorem scenario_B_is_rejected :
  fetch_outputs (Host.env Examples.tx_scenario_B) (Examples.zero_stack 0) 5
    Examples.SELF 100
  = Ret (CKB_SUCCESS,
         {| deposited_dao := [SwapInfo.mk Examples.LOCK 500];
            deposited_dao_cnt := 0;
            uninitialized_wckb := [SwapInfo.mk Examples.LOCK 500];
            initialized_wckb := [TokenInfo.mk 100 1000] |})
  /\ main (Host.env Examples.tx_scenario_B) (Examples.zero_stack 0) 5
     = Ret ERROR_INCORRECT_UNINIT_OUTPUT_WCKB.
Proof.
  split; vm_compute; reflexivity.
Qed.

(** Scenario B on its own does not get to the scans: the script group has
    no input, and the load of the alignment target at line 397 fails. *)
Lemma scenario_B_alone_has_no_target :
  main (Host.env Examples.tx_scenario_B_alone) (Examples.zero_stack 0) 5
  = Ret ERROR_ENCODING.
Proof.
  vm_compute. reflexivity.
Qed.

(** C4 on the code: the 257th WCKB input is stored past the last slot of
    [input_wckb_infos]; no path of [fetch_inputs] returns
    [ERROR_TOO_MANY_SWAPS]. *)
Theorem many_inputs_overrun_the_bucket :
  fetch_inputs (Host.env Examples.tx_many_inputs) (Examples.zero_stack 0)
    300 Examples.SELF = Fault
  /\ main (Host.env Examples.tx_many_inputs) (Examples.zero_stack 0) 300
     = Fault.
Proof.
  split; vm_compute; reflexivity.
Qed.

(** C5 on the code: an input WCKB cell in the 24-byte form is an
    [ERROR_ENCODING]. *)
Theorem input_24_bytes_is_encoding_error :
  main (Host.env Examples.tx_input_24) (Examples.zero_stack 0) 5
  = Ret ERROR_ENCODING.
Proof.
  vm_compute. reflexivity.
Qed.

(** C5, the 16-byte form: the height of the entry is read from the 8 bytes
    of the buffer behind the payload, which the load did not write; here
    they hold 77. *)
Lemma input_16_bytes_height_from_stack :
  fetch_inputs (Host.env (Examples.tx_transfer 1000))
    (Examples.stack_with_height 77 0) 5 Examples.SELF
  = Ret (CKB_SUCCESS, [], [TokenInfo.mk 77 1000]).
Proof.
  vm_compute. reflexivity.
Qed.

(** C6 on the code: the withdrawal entry comes from the input at position
    1 (occupied capacity 10200, committed in block 50), and is bucket entry
    0; its alignment to block 100 feeds the accrual function the occupied
    capacity 6100 and the header (block 100) of the input at position 0. *)
Theorem withdrawal_aligned_with_another_cell
    (f : Z -> dao_header_data_t.t -> dao_header_data_t.t -> Z -> Z -> Z ->
         retcode * Z) (c : Z) :
  let tx := Examples.tx_withdraw f in
  let amount :=
    u64 (snd (f 10200 (Examples.header_at 40) (Examples.header_at 50)
                40 50000 0)) in
  fetch_inputs (Host.env tx) (Examples.zero_stack 0) 5 Examples.SELF
  = Ret (CKB_SUCCESS, [TokenInfo.mk 50 amount], [TokenInfo.mk 0 1000])
  /\ align_dao (Host.env tx) 0 CKB_SOURCE_INPUT (Examples.header_at 100)
       50 (u64 amount) c
     = (fst (f 6100 (Examples.header_at 100) (Examples.header_at 100)
               50 (u64 amount) c),
        u64 (snd (f 6100 (Examples.header_at 100) (Examples.header_at 100)
                    50 (u64 amount) c))).
Proof.
  intros tx amount. subst tx amount. split.
  - lazy -[u64].
    destruct (f 10200 _ _ 40 50000 0) as [r x]. reflexivity.
  - lazy -[u64].
    destruct (f 6100 _ _ 50 _ c) as [r x]. reflexivity.
Qed.

(** ** The same defects on every transaction *)

Section Defects.

Variable env : Env.
Variable stk : Indeterminate.

(** The deposited-dao counter of [main] is never written. *)
Lemma output_cell_counter
    (h : list byte) (a : Z) (i p p' : nat) (st st' : Outputs) :
  output_cell env stk h a i p st = Ret (Continue (p', st')) ->
  deposited_dao_cnt st' = deposited_dao_cnt st.
Proof.
  intros H. unfold output_cell, bind, deref_cnt in H.
  break_match_in H; injection H as <- <-; reflexivity.
Qed.

Lemma fetch_outputs_loop_counter
    (h : list byte) (a : Z) (fuel i p : nat) (st : Outputs)
    (r : retcode) (outs : Outputs) :
  fetch_outputs_loop env stk fuel h a i p st = Ret (r, outs) ->
  deposited_dao_cnt outs = deposited_dao_cnt st.
Proof.
  revert i p st. induction fuel as [|fuel IH]; intros i p st H;
    simpl in H; [discriminate|].
  destruct (output_cell env stk h a i p st) as [[r0|[p' st']]| |] eqn:Hcell;
    simpl in H; try discriminate.
  - now injection H as <- <-.
  - destruct (int_incr i) as [i'| |]; simpl in H; try discriminate.
    rewrite (IH _ _ _ H). eapply output_cell_counter; eassumption.
Qed.

Lemma equation_2_without_counter
    (dd : list SwapInfo.t) (u : SwapInfo.t) (uw : list SwapInfo.t) :
  equation_2 dd 0 (u :: uw) = ERROR_INCORRECT_UNINIT_OUTPUT_WCKB.
Proof. reflexivity. Qed.

(** X20: No run that met an uninitialized wrapped-token output is accepted,
    whatever was deposited. *)
Lemma uninitialized_output_never_accepted
    (fuel : nat) (h : list byte) (tgt : dao_header_data_t.t)
    (w iw : list TokenInfo.t) (outs : Outputs) :
  scanned env stk fuel h tgt w iw outs ->
  uninitialized_wckb outs <> [] ->
  main env stk fuel <> Ret CKB_SUCCESS.
Proof.
  intros Hscan Hne. rewrite (main_after_scans _ _ _ _ _ _ _ _ Hscan).
  destruct Hscan as [_ Hout]. apply fetch_outputs_loop_counter in Hout.
  simpl in Hout. unfold check_equations, check_totals. rewrite Hout.
  destruct (uninitialized_wckb outs) as [|u uw]; [contradiction|].
  rewrite equation_2_without_counter.
  repeat match goal with
         | |- context [let '(_, _) := ?x in _] => destruct x as [[? ?] ?]
         | |- context [if ?b then _ else _] => destruct b eqn:?
         end;
    try discriminate;
    match goal with
    | Hr : negb (is_success ?r) = true |- Ret ?r <> _ =>
        intros [= ->]; discriminate Hr
    end.
Qed.

(** [fetch_inputs] has no path to [ERROR_TOO_MANY_SWAPS] of its own. *)
Lemma input_cell_no_cap
    (h : list byte) (i : nat) (w iw : list TokenInfo.t) :
  (forall j, fst (host_deposit_header_index env j) <> ERROR_TOO_MANY_SWAPS) ->
  input_cell env stk h i w iw <> Ret (Break ERROR_TOO_MANY_SWAPS).
Proof.
  intros Hhost H. unfold input_cell, bind, store_new in H.
  break_match_in H;
    match goal with
    | E : extract_deposit_header_index _ _ = (_, _) |- _ =>
        unfold extract_deposit_header_index in E;
        injection H as ->; apply (Hhost i); now rewrite E
    end.
Qed.

Lemma fetch_inputs_no_cap
    (fuel : nat) (h : list byte) (r : retcode) (w iw : list TokenInfo.t) :
  (forall j, fst (host_deposit_header_index env j) <> ERROR_TOO_MANY_SWAPS) ->
  fetch_inputs env stk fuel h = Ret (r, w, iw) ->
  r <> ERROR_TOO_MANY_SWAPS.
Proof.
  intros Hhost. unfold fetch_inputs. generalize 0%nat.
  generalize (@nil TokenInfo.t) at 1. generalize (@nil TokenInfo.t) at 1.
  induction fuel as [|fuel IH]; intros iw0 w0 i H; simpl in H;
    [discriminate|].
  destruct (input_cell env stk h i w0 iw0) as [[r0|[w1 iw1]]| |] eqn:Hcell;
    simpl in H; try discriminate.
  - injection H as <- <- <-. intros ->.
    exact (input_cell_no_cap _ _ _ _ Hhost Hcell).
  - destruct (int_incr i) as [i'| |]; simpl in H; try discriminate.
    eapply IH; eassumption.
Qed.

(** Every input WCKB cell in the 24-byte form stops the input scan with
    [ERROR_ENCODING]. *)
Lemma input_cell_24_bytes
    (h d : list byte) (i : nat) (w iw : list TokenInfo.t) :
  length h = BLAKE2B_BLOCK_SIZE ->
  host_cell_field env i CKB_SOURCE_INPUT CKB_CELL_FIELD_TYPE_HASH
  = (CKB_SUCCESS, h) ->
  host_cell_data env i CKB_SOURCE_INPUT = (CKB_SUCCESS, d) ->
  length d = (UDT_LEN + BLOCK_NUM_LEN)%nat ->
  input_cell env stk h i w iw = Ret (Break ERROR_ENCODING).
Proof.
  intros Hh Hty Hd Hlen. unfold input_cell.
  rewrite (checked_load_fits _ _ _ _ _ _ Hty)
    by (rewrite Hh; apply Nat.le_refl).
  rewrite (load_cell_data_full _ _ _ _ _ Hd Hlen).
  rewrite Hh, Hlen. cbn [Nat.eqb negb BLAKE2B_BLOCK_SIZE].
  replace (UDT_LEN + BLOCK_NUM_LEN <? UDT_LEN + BLOCK_NUM_LEN)%nat
    with false by reflexivity.
  replace (is_dao_withdraw1_cell h d (UDT_LEN + BLOCK_NUM_LEN)) with false
    by (unfold is_dao_withdraw1_cell; cbn; now rewrite andb_false_r).
  now rewrite memcmp_eq_refl.
Qed.

End Defects.

(** * Further properties *)

(** ** The recognizers of NervosDAO cells *)

(** X1: No cell is both a deposit and a phase-1 withdrawal, and a cell is one of
    the two exactly when its type hash is the NervosDAO hash and its data
    has 8 bytes. *)
Theorem dao_cell_kinds
    (cell_type_hash data : list byte) (data_len : nat) :
  is_dao_deposit_cell cell_type_hash data data_len
  && is_dao_withdraw1_cell cell_type_hash data data_len = false
  /\ is_dao_deposit_cell cell_type_hash data data_len
     || is_dao_withdraw1_cell cell_type_hash data data_len
     = memcmp_eq cell_type_hash NERVOS_DAO_TYPE_HASH BLAKE2B_BLOCK_SIZE
       && (data_len =? BLOCK_NUM_LEN)%nat.
Proof.
  unfold is_dao_deposit_cell, is_dao_withdraw1_cell.
  destruct (memcmp_eq cell_type_hash _ _), (data_len =? BLOCK_NUM_LEN)%nat,
    (memcmp_eq data empty BLOCK_NUM_LEN); split; reflexivity.
Qed.

(** ** Lookups *)

Lemma nth_error_firstn_lt {A : Type} (l : list A) (n i : nat) :
  (i < n)%nat -> nth_error (firstn n l) i = nth_error l i.
Proof.
  intros H. rewrite nth_error_firstn.
  destruct (Nat.ltb_spec i n); [reflexivity|lia].
Qed.

Lemma find_swap_from_spec
    (l : list SwapInfo.t) (j0 j : nat) (v : list byte) :
  find_swap_from l j0 v = Some j ->
  exists l1 s l2,
    l = l1 ++ s :: l2
    /\ j = (j0 + length l1)%nat
    /\ memcmp_eq (SwapInfo.lock_hash s) v BLAKE2B_BLOCK_SIZE = true
    /\ Forall (fun s' =>
         memcmp_eq (SwapInfo.lock_hash s') v BLAKE2B_BLOCK_SIZE = false) l1.
Proof.
  revert j0. induction l as [|s l IH]; intros j0 H; simpl in H;
    [discriminate|].
  destruct (memcmp_eq (SwapInfo.lock_hash s) v BLAKE2B_BLOCK_SIZE) eqn:E.
  - injection H as <-. exists [], s, l. repeat split; simpl; auto.
  - destruct (IH _ H) as (l1 & s1 & l2 & -> & -> & Hs & Hall).
    exists (s :: l1), s1, l2. repeat split; simpl; auto.
Qed.

Lemma find_swap_from_none_all
    (l : list SwapInfo.t) (j0 : nat) (v : list byte) :
  find_swap_from l j0 v = None
  <-> Forall (fun s =>
        memcmp_eq (SwapInfo.lock_hash s) v BLAKE2B_BLOCK_SIZE = false) l.
Proof.
  revert j0. induction l as [|s l IH]; intros j0; simpl.
  - split; [constructor|reflexivity].
  - destruct (memcmp_eq (SwapInfo.lock_hash s) v BLAKE2B_BLOCK_SIZE) eqn:E.
    + split; [discriminate|]. intros H. inversion H; subst. congruence.
    + rewrite IH. split; [now constructor|]. intros H. now inversion H.
Qed.

(** X2: [find_swap_by_lock_hash] returns the first of the [cnt] leading slots
    whose lock hash has the 32 bytes looked for: the index is below the
    count, the slot matches, and no slot before it does. *)
Theorem find_swap_by_lock_hash_first
    (swap_infos : list SwapInfo.t) (cnt found : nat) (lock_hash : list byte) :
  find_swap_by_lock_hash swap_infos cnt lock_hash = Some found ->
  (found < cnt)%nat
  /\ (exists s,
        nth_error swap_infos found = Some s
        /\ memcmp_eq (SwapInfo.lock_hash s) lock_hash BLAKE2B_BLOCK_SIZE
           = true)
  /\ forall k s, (k < found)%nat -> nth_error swap_infos k = Some s ->
       memcmp_eq (SwapInfo.lock_hash s) lock_hash BLAKE2B_BLOCK_SIZE = false.
Proof.
  unfold find_swap_by_lock_hash. intros H.
  destruct (find_swap_from_spec _ _ _ _ H)
    as (l1 & s & l2 & Hl & -> & Hs & Hall).
  simpl.
  assert (Hnth : forall k, (k <= length l1)%nat ->
            nth_error swap_infos k = nth_error (l1 ++ s :: l2) k).
  { intros k Hk. rewrite <- Hl. symmetry. apply nth_error_firstn_lt.
    assert (Hlen : length (firstn cnt swap_infos) = length (l1 ++ s :: l2))
      by now rewrite Hl.
    rewrite length_firstn, length_app in Hlen. simpl in Hlen. lia. }
  assert (Hcnt : (length l1 < cnt)%nat).
  { assert (Hlen : length (firstn cnt swap_infos) = length (l1 ++ s :: l2))
      by now rewrite Hl.
    rewrite length_firstn, length_app in Hlen. simpl in Hlen. lia. }
  split; [assumption|]. split.
  - exists s. split; [|assumption].
    rewrite Hnth by lia. rewrite nth_error_app2 by lia.
    now rewrite Nat.sub_diag.
  - intros k s' Hk Hs'. rewrite Hnth in Hs' by lia.
    rewrite nth_error_app1 in Hs' by assumption.
    rewrite Forall_forall in Hall. apply Hall.
    eapply nth_error_In; eassumption.
Qed.

Lemma find_swap_by_lock_hash_first_witness :
  (0 < 1)%nat
  /\ (exists s,
        nth_error [SwapInfo.mk Examples.LOCK 500] 0 = Some s
        /\ memcmp_eq (SwapInfo.lock_hash s) Examples.LOCK BLAKE2B_BLOCK_SIZE
           = true)
  /\ forall k s, (k < 0)%nat ->
       nth_error [SwapInfo.mk Examples.LOCK 500] k = Some s ->
       memcmp_eq (SwapInfo.lock_hash s) Examples.LOCK BLAKE2B_BLOCK_SIZE
       = false.
Proof.
  apply (find_swap_by_lock_hash_first
           [SwapInfo.mk Examples.LOCK 500] 1 0 Examples.LOCK).
  reflexivity.
Defined.

(** X3: [find_swap_by_lock_hash] returns [-1] exactly when none of the [cnt]
    leading slots has the lock hash looked for. *)
Theorem find_swap_by_lock_hash_missing
    (swap_infos : list SwapInfo.t) (cnt : nat) (lock_hash : list byte) :
  find_swap_by_lock_hash swap_infos cnt lock_hash = None
  <-> forall k s, (k < cnt)%nat -> nth_error swap_infos k = Some s ->
        memcmp_eq (SwapInfo.lock_hash s) lock_hash BLAKE2B_BLOCK_SIZE = false.
Proof.
  unfold find_swap_by_lock_hash. rewrite find_swap_from_none_all.
  rewrite Forall_forall. split.
  - intros H k s Hk Hs. apply H.
    apply (nth_error_In _ k). now rewrite nth_error_firstn_lt by assumption.
  - intros H s Hs. apply In_nth_error in Hs. destruct Hs as [k Hk].
    assert (Hlt : (k < length (firstn cnt swap_infos))%nat)
      by (apply nth_error_Some; congruence).
    rewrite length_firstn in Hlt.
    apply (H k); [lia|]. rewrite <- Hk. symmetry.
    apply nth_error_firstn_lt. lia.
Qed.

Lemma find_token_from_spec
    (l : list TokenInfo.t) (j0 j : nat) (b : Z) :
  find_token_from l j0 b = Some j ->
  exists l1 t l2,
    l = l1 ++ t :: l2
    /\ j = (j0 + length l1)%nat
    /\ TokenInfo.block_number t = b
    /\ Forall (fun t' => TokenInfo.block_number t' <> b) l1.
Proof.
  revert j0. induction l as [|t l IH]; intros j0 H; simpl in H;
    [discriminate|].
  destruct (Z.eqb_spec (TokenInfo.block_number t) b) as [E|E].
  - injection H as <-. exists [], t, l. repeat split; simpl; auto.
  - destruct (IH _ H) as (l1 & t1 & l2 & -> & -> & Ht & Hall).
    exists (t :: l1), t1, l2. repeat split; simpl; auto.
Qed.

(** X4: [find_token_by_block_number] returns the first of the [cnt] leading
    slots with the block number looked for, and [-1] exactly when none of
    them has it. *)
Theorem find_token_by_block_number_first
    (token_infos : list TokenInfo.t) (cnt : nat) (block_number : Z) :
  match find_token_by_block_number token_infos cnt block_number with
  | Some found =>
      (found < cnt)%nat
      /\ (exists t, nth_error token_infos found = Some t
                    /\ TokenInfo.block_number t = block_number)
      /\ forall k t, (k < found)%nat -> nth_error token_infos k = Some t ->
           TokenInfo.block_number t <> block_number
  | None =>
      forall k t, (k < cnt)%nat -> nth_error token_infos k = Some t ->
        TokenInfo.block_number t <> block_number
  end.
Proof.
  unfold find_token_by_block_number.
  destruct (find_token_from (firstn cnt token_infos) 0 block_number)
    as [found|] eqn:H.
  - destruct (find_token_from_spec _ _ _ _ H)
      as (l1 & t & l2 & Hl & -> & Ht & Hall).
    simpl.
    assert (Hcnt : (length l1 < cnt)%nat).
    { assert (Hlen : length (firstn cnt token_infos) = length (l1 ++ t :: l2))
        by now rewrite Hl.
      rewrite length_firstn, length_app in Hlen. simpl in Hlen. lia. }
    assert (Hnth : forall k, (k <= length l1)%nat ->
              nth_error token_infos k = nth_error (l1 ++ t :: l2) k).
    { intros k Hk. rewrite <- Hl. symmetry. apply nth_error_firstn_lt. lia. }
    split; [assumption|]. split.
    + exists t. split; [|assumption].
      rewrite Hnth by lia. rewrite nth_error_app2 by lia.
      now rewrite Nat.sub_diag.
    + intros k t' Hk Ht'. rewrite Hnth in Ht' by lia.
      rewrite nth_error_app1 in Ht' by assumption.
      rewrite Forall_forall in Hall. apply Hall.
      eapply nth_error_In; eassumption.
  - apply find_token_from_none in H. rewrite Forall_forall in H.
    intros k t Hk Ht. apply H. apply (nth_error_In _ k).
    now rewrite nth_error_firstn_lt by assumption.
Qed.

(** ** The equations *)

(** X5: Equation 2 returns [CKB_SUCCESS] exactly when every entry of the
    uninitialized bucket finds, among the counted deposits, a first entry
    with its lock hash, and that entry has its amount; deposits nobody asks
    for do not matter. *)
Theorem equation_2_success
    (deposited_dao : list SwapInfo.t) (deposited_dao_cnt : nat)
    (output_uninit_wckb : list SwapInfo.t) :
  equation_2 deposited_dao deposited_dao_cnt output_uninit_wckb = CKB_SUCCESS
  <-> Forall (backed deposited_dao deposited_dao_cnt) output_uninit_wckb.
Proof.
  induction output_uninit_wckb as [|u uw IH]; simpl.
  - split; [constructor|reflexivity].
  - destruct (find_swap_by_lock_hash deposited_dao deposited_dao_cnt
                (SwapInfo.lock_hash u)) as [found|] eqn:Hfind.
    + destruct (nth_error deposited_dao found) as [d|] eqn:Hd.
      * destruct (Z.eqb_spec (SwapInfo.amount u) (SwapInfo.amount d))
          as [E|E]; cbn [negb].
        -- rewrite IH. split.
           ++ intros H. constructor; [|assumption]. now exists found, d.
           ++ intros H. now inversion H.
        -- split; [discriminate|]. intros H. inversion H as [|? ? Hb _].
           destruct Hb as (f' & d' & Hf' & Hd' & Ha').
           rewrite Hfind in Hf'. injection Hf' as <-. congruence.
      * split; [discriminate|]. intros H. inversion H as [|? ? Hb _].
        destruct Hb as (f' & d' & Hf' & Hd' & Ha').
        rewrite Hfind in Hf'. injection Hf' as <-. congruence.
    + split; [discriminate|]. intros H. inversion H as [|? ? Hb _].
      destruct Hb as (f' & d' & Hf' & _). congruence.
Qed.

(** X6: Without underflow equation 1 is exact: when the withdrawn total does
    not exceed the input total, it holds exactly when the output total is
    their difference. *)
Theorem equation_1_exact
    (total_input_wckb total_withdraw_dao total_output_wckb : Z) :
  0 <= total_withdraw_dao <= total_input_wckb ->
  total_input_wckb < UINT64_MOD ->
  equation_1 total_input_wckb total_withdraw_dao total_output_wckb = true
  <-> total_output_wckb = total_input_wckb - total_withdraw_dao.
Proof.
  intros Hle Hmax. unfold equation_1, u64.
  rewrite Z.mod_small by lia. rewrite Z.eqb_eq. split; congruence.
Qed.

Lemma equation_1_exact_witness :
  equation_1 1000 400 600 = true <-> 600 = 1000 - 400.
Proof.
  apply (equation_1_exact 1000 400 600); unfold UINT64_MOD; lia.
Defined.

(** ** The scans return *)

Section Termination.

Variable env : Env.
Variable stk : Indeterminate.

Lemma checked_load_out_of_bound
    (cap n : nat) (src : source) (f : field) (x : list byte) :
  host_cell_field env n src f = (CKB_INDEX_OUT_OF_BOUND, x) ->
  ckb_checked_load_cell_by_field env cap n src f
  = (CKB_INDEX_OUT_OF_BOUND, cap, []).
Proof.
  intros H. unfold ckb_checked_load_cell_by_field. now rewrite H.
Qed.

Lemma output_cell_in_one_pass
    (h : list byte) (a : Z) (i p : nat) (st : Outputs) :
  output_cell env stk h a i p st <> OutOfFuel.
Proof.
  unfold output_cell, bind, deref_cnt. cbv zeta.
  repeat match goal with
         | |- context [match ?x with _ => _ end] =>
             lazymatch x with
             | context [match _ with _ => _ end] => fail
             | _ => destruct x; cbv beta iota zeta
             end
         end; discriminate.
Qed.

Lemma input_cell_in_one_pass
    (h : list byte) (i : nat) (w iw : list TokenInfo.t) :
  input_cell env stk h i w iw <> OutOfFuel.
Proof.
  unfold input_cell, bind, store_new. cbv zeta.
  repeat match goal with
         | |- context [match ?x with _ => _ end] =>
             lazymatch x with
             | context [match _ with _ => _ end] => fail
             | _ => destruct x; cbv beta iota zeta
             end
         end; discriminate.
Qed.

Lemma fetch_outputs_loop_returns
    (h : list byte) (a : Z) (n : nat) (x : list byte)
    (fuel i p : nat) (st : Outputs) :
  host_cell_field env n CKB_SOURCE_OUTPUT CKB_CELL_FIELD_TYPE_HASH
  = (CKB_INDEX_OUT_OF_BOUND, x) ->
  (i <= n)%nat -> (n - i < fuel)%nat ->
  fetch_outputs_loop env stk fuel h a i p st <> OutOfFuel.
Proof.
  intros Hn. revert i p st. induction fuel as [|fuel IH]; intros i p st Hi Hf;
    [lia|]. simpl.
  destruct (Nat.eq_dec i n) as [->|Hne].
  - unfold output_cell. rewrite (checked_load_out_of_bound _ _ _ _ _ Hn).
    simpl. discriminate.
  - pose proof (output_cell_in_one_pass h a i p st) as Hcell.
    destruct (output_cell env stk h a i p st) as [[r|[p' st']]| |]; simpl;
      try discriminate; [|contradiction].
    unfold int_incr. destruct (Z.of_nat i <? INT_MAX); simpl;
      [|discriminate].
    apply IH; lia.
Qed.

Lemma fetch_inputs_loop_returns
    (h : list byte) (n : nat) (x : list byte)
    (fuel i : nat) (w iw : list TokenInfo.t) :
  host_cell_field env n CKB_SOURCE_INPUT CKB_CELL_FIELD_TYPE_HASH
  = (CKB_INDEX_OUT_OF_BOUND, x) ->
  (i <= n)%nat -> (n - i < fuel)%nat ->
  fetch_inputs_loop env stk fuel h i w iw <> OutOfFuel.
Proof.
  intros Hn. revert i w iw. induction fuel as [|fuel IH]; intros i w iw Hi Hf;
    [lia|]. simpl.
  destruct (Nat.eq_dec i n) as [->|Hne].
  - unfold input_cell. rewrite (checked_load_out_of_bound _ _ _ _ _ Hn).
    simpl. discriminate.
  - pose proof (input_cell_in_one_pass h i w iw) as Hcell.
    destruct (input_cell env stk h i w iw) as [[r|[w' iw']]| |]; simpl;
      try discriminate; [|contradiction].
    unfold int_incr. destruct (Z.of_nat i <? INT_MAX); simpl;
      [|discriminate].
    apply IH; lia.
Qed.

Lemma fetch_outputs_loop_more_fuel
    (h : list byte) (a : Z) (fuel k i p : nat) (st : Outputs) :
  fetch_outputs_loop env stk fuel h a i p st <> OutOfFuel ->
  fetch_outputs_loop env stk (fuel + k) h a i p st
  = fetch_outputs_loop env stk fuel h a i p st.
Proof.
  revert i p st. induction fuel as [|fuel IH]; intros i p st H; simpl in *;
    [congruence|].
  destruct (output_cell env stk h a i p st) as [[r|[p' st']]| |]; simpl in *;
    try reflexivity.
  destruct (int_incr i); simpl in *; try reflexivity. now apply IH.
Qed.

Lemma fetch_inputs_loop_more_fuel
    (h : list byte) (fuel k i : nat) (w iw : list TokenInfo.t) :
  fetch_inputs_loop env stk fuel h i w iw <> OutOfFuel ->
  fetch_inputs_loop env stk (fuel + k) h i w iw
  = fetch_inputs_loop env stk fuel h i w iw.
Proof.
  revert i w iw. induction fuel as [|fuel IH]; intros i w iw H; simpl in *;
    [congruence|].
  destruct (input_cell env stk h i w iw) as [[r|[w' iw']]| |]; simpl in *;
    try reflexivity.
  destruct (int_incr i); simpl in *; try reflexivity. now apply IH.
Qed.

(** X7: A run returns: when the host reports the end of the inputs at index
    [n_in] and the end of the outputs at index [n_out], [main] does not run
    out of fuel once it has more than both. *)
Theorem main_returns
    (n_in n_out : nat) (x y : list byte) (fuel : nat) :
  host_cell_field env n_in CKB_SOURCE_INPUT CKB_CELL_FIELD_TYPE_HASH
  = (CKB_INDEX_OUT_OF_BOUND, x) ->
  host_cell_field env n_out CKB_SOURCE_OUTPUT CKB_CELL_FIELD_TYPE_HASH
  = (CKB_INDEX_OUT_OF_BOUND, y) ->
  (n_in < fuel)%nat -> (n_out < fuel)%nat ->
  main env stk fuel <> OutOfFuel.
Proof.
  intros Hin Hout Hfi Hfo. unfold main.
  destruct (ckb_load_script_hash env) as [[r len] h].
  destruct (negb _); [discriminate|].
  destruct (load_dao_header_data env 0 CKB_SOURCE_GROUP_INPUT) as [r1 tgt].
  destruct (negb _); [discriminate|].
  unfold fetch_inputs.
  pose proof (fetch_inputs_loop_returns h n_in x fuel 0 [] [] Hin
                (Nat.le_0_l _)) as Hi.
  destruct (fetch_inputs_loop env stk fuel h 0 [] []) as [[[r2 w] iw]| |];
    simpl; [|discriminate|exfalso; apply Hi; [lia|reflexivity]].
  destruct (negb _); [discriminate|].
  unfold fetch_outputs.
  pose proof (fetch_outputs_loop_returns h
                (dao_header_data_t.block_number tgt) n_out y fuel 0 0
                no_outputs Hout (Nat.le_0_l _)) as Ho.
  destruct (fetch_outputs_loop env stk fuel h _ 0 0 no_outputs)
    as [[r3 outs]| |];
    simpl; [|discriminate|exfalso; apply Ho; [lia|reflexivity]].
  destruct (negb _); discriminate.
Qed.

(** What a run returns does not depend on the fuel it had left. *)
Theorem main_more_fuel (fuel k : nat) :
  main env stk fuel <> OutOfFuel ->
  main env stk (fuel + k) = main env stk fuel.
Proof.
  unfold main.
  destruct (ckb_load_script_hash env) as [[r len] h].
  destruct (negb _); [reflexivity|].
  destruct (load_dao_header_data env 0 CKB_SOURCE_GROUP_INPUT) as [r1 tgt].
  destruct (negb _); [reflexivity|].
  unfold fetch_inputs. intros H.
  assert (Hi : fetch_inputs_loop env stk fuel h 0 [] [] <> OutOfFuel).
  { intros E. rewrite E in H. now apply H. }
  rewrite (fetch_inputs_loop_more_fuel _ _ k _ _ _ Hi).
  destruct (fetch_inputs_loop env stk fuel h 0 [] []) as [[[r2 w] iw]| |];
    simpl in *; try reflexivity.
  destruct (negb _); [reflexivity|].
  unfold fetch_outputs in *.
  assert (Ho : fetch_outputs_loop env stk fuel h
                 (dao_header_data_t.block_number tgt) 0 0 no_outputs
               <> OutOfFuel).
  { intros E. rewrite E in H. now apply H. }
  now rewrite (fetch_outputs_loop_more_fuel _ _ _ k _ _ _ Ho).
Qed.

End Termination.

Lemma main_returns_witness :
  main (Host.env Examples.tx_scenario_B) (Examples.zero_stack 0) 5
  <> OutOfFuel.
Proof.
  apply (main_returns (Host.env Examples.tx_scenario_B)
           (Examples.zero_stack 0) 1 3 [] [] 5);
    solve [reflexivity | lia].
Defined.

Lemma main_more_fuel_witness :
  main (Host.env Examples.tx_scenario_B) (Examples.zero_stack 0) (5 + 7)
  = main (Host.env Examples.tx_scenario_B) (Examples.zero_stack 0) 5.
Proof.
  apply (main_more_fuel (Host.env Examples.tx_scenario_B)
           (Examples.zero_stack 0) 5 7).
  vm_compute. discriminate.
Defined.

(** ** Values read from a payload *)

Lemma le_decode_bound (bs : list byte) :
  0 <= le_decode bs < 256 ^ Z.of_nat (length bs).
Proof.
  induction bs as [|b bs IH]; [simpl; lia|].
  cbn [le_decode length]. rewrite Nat2Z.inj_succ, Z.pow_succ_r by lia.
  pose proof (Byte.to_N_bounded b) as Hb.
  assert (0 <= Z.of_N (Byte.to_N b) <= 255) by lia.
  lia.
Qed.

Lemma le_decode_below (bs : list byte) (n : nat) :
  (length bs <= n)%nat -> 0 <= le_decode bs < 256 ^ Z.of_nat n.
Proof.
  intros Hn. pose proof (le_decode_bound bs) as [H0 H1]. split; [assumption|].
  eapply Z.lt_le_trans; [exact H1|].
  apply Z.pow_le_mono_r; lia.
Qed.

Lemma read_u128_range (buf : list byte) (off : nat) :
  0 <= read_u128 buf off < UINT128_MOD.
Proof.
  unfold read_u128. apply (le_decode_below _ 16). apply firstn_le_length.
Qed.

Lemma read_u64_range (buf : list byte) (off : nat) :
  0 <= read_u64 buf off < UINT64_MOD.
Proof.
  unfold read_u64. apply (le_decode_below _ 8). apply firstn_le_length.
Qed.

(** X8: The amount and the height read from a buffer are a [uint128_t] and a
    [uint64_t], whatever the buffer holds and however short it is. *)
Theorem payload_fields_in_range (buf : list byte) (off : nat) :
  0 <= read_u128 buf off < UINT128_MOD
  /\ 0 <= read_u64 buf off < UINT64_MOD.
Proof.
  split.
  - unfold read_u128. apply (le_decode_below _ 16). apply firstn_le_length.
  - unfold read_u64. apply (le_decode_below _ 8). apply firstn_le_length.
Qed.

Lemma u128_small (x : Z) : 0 <= x < UINT128_MOD -> u128 x = x.
Proof. intros H. unfold u128. now apply Z.mod_small. Qed.

Lemma u128_add_l (x y : Z) : u128 (u128 x + y) = u128 (x + y).
Proof.
  unfold u128. apply Zplus_mod_idemp_l.
Qed.

Lemma sum_one (x : Z) : sum [x] = x.
Proof. unfold sum. cbn [fold_right]. lia. Qed.

Lemma sum_app (l1 l2 : list Z) : sum (l1 ++ l2) = sum l1 + sum l2.
Proof.
  unfold sum. induction l1 as [|x l1 IH]; simpl; [reflexivity|].
  fold (sum (l1 ++ l2)) in *. fold (sum l1) in *. lia.
Qed.

(** ** What the output scan puts in its buckets *)

Lemma checked_load_inv (env : Env) (cap i n : nat) (src : source) (f : field)
    (v : list byte) :
  ckb_checked_load_cell_by_field env cap i src f = (CKB_SUCCESS, n, v) ->
  host_cell_field env i src f = (CKB_SUCCESS, v)
  /\ n = length v /\ (length v <= cap)%nat.
Proof.
  unfold ckb_checked_load_cell_by_field.
  destruct (host_cell_field env i src f) as [r x].
  destruct r; try discriminate.
  destruct (Nat.ltb_spec cap (length x)); [discriminate|].
  intros [= <- <-]. auto.
Qed.

Lemma load_cell_data_inv (env : Env) (stk : Indeterminate)
    (i n : nat) (src : source) (b : list byte) :
  ckb_load_cell_data env stk i src = (CKB_SUCCESS, n, b) ->
  exists d,
    host_cell_data env i src = (CKB_SUCCESS, d)
    /\ n = length d
    /\ b = load_into (stack_buf stk src i) (UDT_LEN + BLOCK_NUM_LEN) d.
Proof.
  unfold ckb_load_cell_data.
  destruct (host_cell_data env i src) as [r d].
  destruct r; try discriminate.
  intros [= <- <-]. now exists d.
Qed.

Section OutputBuckets.

Variable env : Env.
Variable stk : Indeterminate.
Variable h : list byte.
Variable a : Z.

Hypothesis h_len : length h = BLAKE2B_BLOCK_SIZE.

(** The loads of the wrapped-token branch of [output_cell] say what
    [wckb_output_height] says. *)
Lemma wckb_height_of_loads (i n n0 : nat) (l l0 : list byte) :
  ckb_checked_load_cell_by_field env BLAKE2B_BLOCK_SIZE i CKB_SOURCE_OUTPUT
    CKB_CELL_FIELD_TYPE_HASH = (CKB_SUCCESS, n, l) ->
  negb (n =? BLAKE2B_BLOCK_SIZE)%nat = false ->
  ckb_load_cell_data env stk i CKB_SOURCE_OUTPUT = (CKB_SUCCESS, n0, l0) ->
  memcmp_eq l h BLAKE2B_BLOCK_SIZE = true ->
  negb (n0 =? UDT_LEN + BLOCK_NUM_LEN)%nat = false ->
  wckb_output_height env h i = Some (read_u64 l0 UDT_LEN).
Proof.
  intros Hty Hn Hd Hmem Hn0.
  apply checked_load_inv in Hty. destruct Hty as (Hty & -> & _).
  apply negb_false_iff, Nat.eqb_eq in Hn.
  apply memcmp_eq_full in Hmem; [|assumption..]. subst l.
  apply load_cell_data_inv in Hd. destruct Hd as (d & Hd & -> & ->).
  apply negb_false_iff, Nat.eqb_eq in Hn0.
  unfold wckb_output_height, output_type_is.
  rewrite Hty, bytes_eqb_refl, Hd, Hn0, Nat.eqb_refl.
  now rewrite load_into_full.
Qed.

Lemma uninit_lock_of_loads (i n n0 n1 : nat) (l l0 l1 : list byte) :
  ckb_checked_load_cell_by_field env BLAKE2B_BLOCK_SIZE i CKB_SOURCE_OUTPUT
    CKB_CELL_FIELD_TYPE_HASH = (CKB_SUCCESS, n, l) ->
  negb (n =? BLAKE2B_BLOCK_SIZE)%nat = false ->
  ckb_load_cell_data env stk i CKB_SOURCE_OUTPUT = (CKB_SUCCESS, n0, l0) ->
  memcmp_eq l h BLAKE2B_BLOCK_SIZE = true ->
  negb (n0 =? UDT_LEN + BLOCK_NUM_LEN)%nat = false ->
  (read_u64 l0 UDT_LEN =? 0) = true ->
  ckb_checked_load_cell_by_field env BLAKE2B_BLOCK_SIZE i CKB_SOURCE_OUTPUT
    CKB_CELL_FIELD_LOCK_HASH = (CKB_SUCCESS, n1, l1) ->
  negb (n1 =? BLAKE2B_BLOCK_SIZE)%nat = false ->
  uninit_lock env h i = Some l1.
Proof.
  intros Hty Hn Hd Hmem Hn0 Hz Hlk Hn1.
  unfold uninit_lock.
  rewrite (wckb_height_of_loads _ _ _ _ _ Hty Hn Hd Hmem Hn0).
  apply Z.eqb_eq in Hz. rewrite Hz.
  apply checked_load_inv in Hlk. destruct Hlk as (Hlk & -> & _).
  apply negb_false_iff in Hn1. now rewrite Hlk, Hn1.
Qed.

(** A cell that is not an initialized wrapped-token cell leaves the
    initialized bucket as it is. *)
Lemma output_cell_keeps_initialized (i p p' : nat) (st st' : Outputs) :
  output_cell env stk h a i p st = Ret (Continue (p', st')) ->
  (forall ht, wckb_output_height env h i = Some ht -> ht = 0) ->
  initialized_wckb st' = initialized_wckb st.
Proof.
  intros H Hnot. unfold output_cell, bind, deref_cnt in H.
  break_match_in H; injection H as <- <-; simpl; try reflexivity;
    exfalso;
    match goal with
    | Hz : (read_u64 ?b UDT_LEN =? 0) = false |- _ =>
        apply Z.eqb_neq in Hz; apply Hz, Hnot;
        eapply wckb_height_of_loads; eassumption
    end.
Qed.

(** A cell that is not an uninitialized wrapped-token cell leaves the
    uninitialized bucket as it is. *)
Lemma output_cell_keeps_uninitialized (i p p' : nat) (st st' : Outputs) :
  output_cell env stk h a i p st = Ret (Continue (p', st')) ->
  uninit_lock env h i = None ->
  uninitialized_wckb st' = uninitialized_wckb st.
Proof.
  intros H Hnot. unfold output_cell, bind, deref_cnt in H.
  break_match_in H; injection H as <- <-; simpl; try reflexivity;
    exfalso;
    match goal with
    | Hz : (read_u64 ?b UDT_LEN =? 0) = true |- _ =>
        erewrite uninit_lock_of_loads in Hnot by eassumption;
        discriminate Hnot
    end.
Qed.

End OutputBuckets.

Lemma outputs_prefix_initialized
    (env : Env) (stk : Indeterminate) (h : list byte) (a : Z)
    (k p : nat) (st : Outputs) :
  length h = BLAKE2B_BLOCK_SIZE ->
  outputs_prefix env stk h a k = Some (p, st) ->
  initialized_wckb st
  = match initialized_amounts env h k with
    | [] => []
    | _ :: _ =>
        [TokenInfo.mk a (u128 (sum (initialized_amounts env h k)))]
    end.
Proof.
  intros Hlen. revert p st. induction k as [|k IH]; intros p st H; simpl in H.
  - now injection H as <- <-.
  - destruct (outputs_prefix env stk h a k) as [[p0 st0]|]; [|discriminate].
    specialize (IH _ _ eq_refl).
    destruct (output_cell env stk h a k p0 st0) as [[r|[p1 st1]]| |] eqn:Hcell;
      try discriminate.
    destruct (int_incr k); try discriminate.
    injection H as <- <-. cbn [initialized_amounts].
    destruct (wckb_output_height env h k) as [ht|] eqn:Hht.
    + destruct (Z.eqb_spec ht 0) as [Hz|Hnz].
      * rewrite app_nil_r, <- IH.
        eapply output_cell_keeps_initialized; try eassumption.
        intros ht' Hht'. congruence.
      * destruct (wckb_output_height_inv _ _ _ _ Hht)
          as (d & Hty & Hd & Hdl & Hrd).
        assert (Hamt : output_amount env k = read_u128 d 0)
          by (unfold output_amount; now rewrite Hd).
        erewrite output_cell_wckb in Hcell; try eassumption;
          [|rewrite Hrd; assumption].
        rewrite Hrd in Hcell.
        destruct (Z.eqb_spec ht a) as [->|Hne]; [|discriminate].
        cbn [negb] in Hcell. rewrite Hamt.
        pose proof (read_u128_range d 0) as Hrange.
        rewrite IH in Hcell.
        destruct (initialized_amounts env h k) as [|x r] eqn:Hl.
        -- cbn in Hcell. injection Hcell as <- <-. cbn.
           rewrite Z.add_0_r. now rewrite u128_small.
        -- cbn [length firstn find_token_by_block_number find_token_from
                TokenInfo.block_number] in Hcell.
           rewrite Z.eqb_refl in Hcell. injection Hcell as <- <-.
           cbn [initialized_wckb token_add_amount TokenInfo.block_number
                TokenInfo.amount app].
           rewrite u128_add_l. f_equal. f_equal. f_equal.
           change (x :: r ++ [read_u128 d 0])
             with ((x :: r) ++ [read_u128 d 0]).
           rewrite sum_app.
           replace (sum [read_u128 d 0]) with (read_u128 d 0)
             by (unfold sum; cbn [fold_right]; lia).
           reflexivity.
    + rewrite app_nil_r, <- IH.
      eapply output_cell_keeps_initialized; try eassumption.
      intros ht' Hht'. congruence.
Qed.

(** X9: When the output scan gets to index [k], the initialized bucket is empty
    if no initialized wrapped-token output came before [k]; otherwise it is
    one entry at the alignment block number whose amount is the sum of
    their amounts, modulo [2^128]. *)
Theorem initialized_bucket_is_the_sum
    (env : Env) (stk : Indeterminate) (h : list byte) (a : Z)
    (k p : nat) (st : Outputs) :
  length h = BLAKE2B_BLOCK_SIZE ->
  outputs_prefix env stk h a k = Some (p, st) ->
  initialized_wckb st
  = match initialized_amounts env h k with
    | [] => []
    | _ :: _ =>
        [TokenInfo.mk a (u128 (sum (initialized_amounts env h k)))]
    end.
Proof.
  intros Hlen Hpre. eapply outputs_prefix_initialized; eassumption.
Qed.

Lemma initialized_bucket_is_the_sum_witness :
  [TokenInfo.mk 100 1000]
  = match initialized_amounts (Host.env Examples.tx_two_outputs)
            Examples.SELF 2 with
    | [] => []
    | _ :: _ =>
        [TokenInfo.mk 100
           (u128 (sum (initialized_amounts
                         (Host.env Examples.tx_two_outputs)
                         Examples.SELF 2)))]
    end.
Proof.
  apply (initialized_bucket_is_the_sum
           (Host.env Examples.tx_two_outputs) (Examples.zero_stack 0)
           Examples.SELF 100 2 0
           {| deposited_dao := []; deposited_dao_cnt := 0;
              uninitialized_wckb := [];
              initialized_wckb := [TokenInfo.mk 100 1000] |});
    vm_compute; reflexivity.
Defined.

Lemma swap_add_amount_app
    (l1 : list SwapInfo.t) (s : SwapInfo.t) (l2 : list SwapInfo.t) (x : Z) :
  swap_add_amount (l1 ++ s :: l2) (length l1) x
  = l1 ++ SwapInfo.mk (SwapInfo.lock_hash s) (u128 (SwapInfo.amount s + x))
          :: l2.
Proof.
  induction l1 as [|y l1 IH]; simpl; [reflexivity|]. now rewrite IH.
Qed.

Lemma is_dao_deposit_cell_other_length
    (cell_type_hash data : list byte) (data_len : nat) :
  data_len <> BLOCK_NUM_LEN ->
  is_dao_deposit_cell cell_type_hash data data_len = false.
Proof.
  intros H. unfold is_dao_deposit_cell.
  apply Nat.eqb_neq in H. rewrite H.
  now rewrite andb_false_r.
Qed.

Section UninitSums.

Variable env : Env.
Variable stk : Indeterminate.
Variable h : list byte.
Variable a : Z.

Hypothesis h_len : length h = BLAKE2B_BLOCK_SIZE.

(** The body of the loop at an uninitialized wrapped-token cell, with the
    amount it records. *)
Lemma output_cell_uninit_amount (i p : nat) (st : Outputs) (l : list byte) :
  uninit_lock env h i = Some l ->
  output_cell env stk h a i p st
  = match find_swap_by_lock_hash (uninitialized_wckb st)
            (length (uninitialized_wckb st)) l with
    | Some found =>
        Ret (Continue (p,
          {| deposited_dao := deposited_dao st;
             deposited_dao_cnt := deposited_dao_cnt st;
             uninitialized_wckb :=
               swap_add_amount (uninitialized_wckb st) found
                 (output_amount env i);
             initialized_wckb := initialized_wckb st |}))
    | None =>
        if (MAX_SWAPS <=? length (uninitialized_wckb st))%nat
        then Ret (Break ERROR_TOO_MANY_SWAPS)
        else Ret (Continue (p,
          {| deposited_dao := deposited_dao st;
             deposited_dao_cnt := deposited_dao_cnt st;
             uninitialized_wckb :=
               uninitialized_wckb st
                 ++ [SwapInfo.mk l (output_amount env i)];
             initialized_wckb := initialized_wckb st |}))
    end.
Proof.
  intros Hl.
  destruct (uninit_lock_inv _ _ _ _ Hl)
    as (d & Hty & Hd & Hlen & Hz & Hlk & Hll).
  unfold output_amount. rewrite Hd. cbn [snd]. unfold output_cell.
  rewrite (checked_load_fits _ _ _ _ _ _ Hty)
    by (rewrite h_len; apply Nat.le_refl).
  rewrite (load_cell_data_full _ _ _ _ _ Hd Hlen).
  rewrite (checked_load_fits _ _ _ _ _ _ Hlk)
    by (rewrite Hll; apply Nat.le_refl).
  rewrite h_len, Hlen, Hll, Hz. cbn [Nat.eqb negb BLAKE2B_BLOCK_SIZE].
  replace (UDT_LEN + BLOCK_NUM_LEN <? UDT_LEN + BLOCK_NUM_LEN)%nat
    with false by reflexivity.
  rewrite is_dao_deposit_cell_other_length by discriminate.
  rewrite memcmp_eq_refl.
  replace (UDT_LEN + BLOCK_NUM_LEN =? UDT_LEN + BLOCK_NUM_LEN)%nat
    with true by reflexivity.
  reflexivity.
Qed.

Lemma uninit_amounts_nil (v : list byte) (k : nat) :
  (forall j, (j < k)%nat -> uninit_lock env h j <> Some v) ->
  uninit_amounts env h v k = [].
Proof.
  induction k as [|k IH]; intros H; [reflexivity|]. cbn [uninit_amounts].
  rewrite IH by (intros j Hj; apply H; lia).
  destruct (uninit_lock env h k) as [u|] eqn:Hu; [|reflexivity].
  destruct (bytes_eqb u v) eqn:E; [|reflexivity].
  apply bytes_eqb_eq in E. subst u. exfalso. apply (H k); [lia|assumption].
Qed.

Lemma uninit_amounts_other (v u : list byte) (k : nat) :
  uninit_lock env h k = Some u -> u <> v ->
  uninit_amounts env h v (S k) = uninit_amounts env h v k.
Proof.
  intros Hu Hne. cbn [uninit_amounts]. rewrite Hu.
  destruct (bytes_eqb u v) eqn:E; [|apply app_nil_r].
  apply bytes_eqb_eq in E. contradiction.
Qed.

Lemma uninit_amounts_same (v : list byte) (k : nat) :
  uninit_lock env h k = Some v ->
  uninit_amounts env h v (S k)
  = uninit_amounts env h v k ++ [output_amount env k].
Proof.
  intros Hu. cbn [uninit_amounts]. now rewrite Hu, bytes_eqb_refl.
Qed.

Lemma outputs_prefix_sums (k p : nat) (st : Outputs) :
  outputs_prefix env stk h a k = Some (p, st) ->
  NoDup (locks (uninitialized_wckb st))
  /\ Forall (entry_sums env h k) (uninitialized_wckb st).
Proof.
  revert p st. induction k as [|k IH]; intros p st H.
  - simpl in H. injection H as <- <-. split; constructor.
  - pose proof H as Hnext. simpl in H.
    destruct (outputs_prefix env stk h a k) as [[p0 st0]|] eqn:Hpre;
      [|discriminate].
    destruct (IH _ _ eq_refl) as [Hnd Hsum].
    destruct (outputs_prefix_locks _ _ _ _ h_len _ _ _ Hpre) as [Hwl Hseen].
    destruct (output_cell env stk h a k p0 st0) as [[r|[p1 st1]]| |] eqn:Hcell;
      try discriminate.
    destruct (int_incr k); try discriminate.
    injection H as <- <-.
    destruct (uninit_lock env h k) as [v|] eqn:Hv.
    + destruct (uninit_lock_inv _ _ _ _ Hv) as (_ & _ & _ & _ & _ & _ & Hvl).
      rewrite (output_cell_uninit_amount _ _ _ _ Hv) in Hcell.
      destruct (find_swap_by_lock_hash _ _ v) as [found|] eqn:Hfind.
      * injection Hcell as <- <-. cbn [uninitialized_wckb].
        unfold find_swap_by_lock_hash in Hfind. rewrite firstn_all in Hfind.
        destruct (find_swap_from_spec _ _ _ _ Hfind)
          as (l1 & s0 & l2 & Hl & -> & Hs0 & _).
        rewrite Hl in *. cbn [Nat.add]. rewrite swap_add_amount_app.
        destruct Hwl as [_ Hall]. rewrite Forall_forall in Hall.
        assert (Hlock : SwapInfo.lock_hash s0 = v).
        { apply memcmp_eq_full in Hs0; [assumption| |assumption].
          apply Hall. apply in_or_app. right. now left. }
        assert (Hlocks :
                  locks (l1 ++ SwapInfo.mk (SwapInfo.lock_hash s0)
                                  (u128 (SwapInfo.amount s0
                                         + output_amount env k))
                                  :: l2)
                  = locks (l1 ++ s0 :: l2))
          by (unfold locks; now rewrite !map_app).
        split; [now rewrite Hlocks|].
        assert (Hother : forall s, In s l1 \/ In s l2 ->
                  SwapInfo.lock_hash s <> v).
        { intros s Hs Heq. unfold locks in Hnd. rewrite map_app in Hnd.
          cbn [map] in Hnd. apply NoDup_remove_2 in Hnd. apply Hnd.
          rewrite Hlock, <- Heq. apply in_or_app.
          destruct Hs as [Hs|Hs]; [left|right];
            now apply (in_map SwapInfo.lock_hash). }
        rewrite Forall_forall in Hsum. apply Forall_forall. intros s Hs.
        apply in_app_or in Hs. destruct Hs as [Hs|[<-|Hs]].
        -- unfold entry_sums.
           rewrite (uninit_amounts_other _ v) by (auto using not_eq_sym).
           apply Hsum. apply in_or_app. now left.
        -- unfold entry_sums. cbn [SwapInfo.lock_hash SwapInfo.amount].
           rewrite Hlock, (uninit_amounts_same _ _ Hv).
           split; [now destruct (uninit_amounts env h v k)|].
           assert (Hs0sum : entry_sums env h k s0)
             by (apply Hsum; apply in_or_app; right; now left).
           destruct Hs0sum as [_ Hamt]. rewrite Hlock in Hamt.
           now rewrite Hamt, u128_add_l, sum_app, sum_one.
        -- unfold entry_sums.
           rewrite (uninit_amounts_other _ v) by (auto using not_eq_sym).
           apply Hsum. apply in_or_app. right. now right.
      * destruct (MAX_SWAPS <=? _)%nat; [discriminate|].
        injection Hcell as <- <-. cbn [uninitialized_wckb].
        unfold find_swap_by_lock_hash in Hfind. rewrite firstn_all in Hfind.
        apply find_swap_from_none in Hfind.
        split.
        -- unfold locks. rewrite map_app. cbn [map SwapInfo.lock_hash].
           apply NoDup_app; [assumption|repeat constructor; now intros []|].
           intros u Hu [<-|[]]. contradiction.
        -- apply Forall_app. split.
           ++ rewrite Forall_forall in *. intros s Hs. unfold entry_sums.
              rewrite (uninit_amounts_other _ v); [now apply Hsum|assumption|].
              intros Heq. apply Hfind. rewrite Heq.
              now apply (in_map SwapInfo.lock_hash).
           ++ repeat constructor; cbn [SwapInfo.lock_hash SwapInfo.amount];
                rewrite (uninit_amounts_same _ _ Hv);
                [now destruct (uninit_amounts env h v k)|].
              rewrite uninit_amounts_nil.
              ** cbn [app]. rewrite sum_one. symmetry. apply u128_small.
                 apply read_u128_range.
              ** intros j Hj Hjv. apply Hfind. eapply Hseen; eassumption.
    + rewrite (output_cell_keeps_uninitialized _ _ _ _ h_len _ _ _ _ _
                 Hcell Hv).
      split; [assumption|].
      rewrite Forall_forall in *. intros s Hs. unfold entry_sums.
      cbn [uninit_amounts]. rewrite Hv, app_nil_r. now apply Hsum.
Qed.

End UninitSums.

(** X10: When the output scan gets to index [k], the uninitialized bucket holds
    one entry for each lock hash met on an uninitialized wrapped-token
    output before [k]: the lock hashes of the bucket are pairwise distinct,
    every entry sums the amounts of the outputs under its lock hash modulo
    [2^128], and no such output is left out. *)
Theorem uninitialized_bucket_is_the_sums
    (env : Env) (stk : Indeterminate) (h : list byte) (a : Z)
    (k p : nat) (st : Outputs) :
  length h = BLAKE2B_BLOCK_SIZE ->
  outputs_prefix env stk h a k = Some (p, st) ->
  NoDup (locks (uninitialized_wckb st))
  /\ Forall (entry_sums env h k) (uninitialized_wckb st)
  /\ (forall j v, (j < k)%nat -> uninit_lock env h j = Some v ->
                  In v (locks (uninitialized_wckb st)))
  /\ (length (uninitialized_wckb st) <= MAX_SWAPS)%nat.
Proof.
  intros Hlen Hpre.
  destruct (outputs_prefix_sums env stk h a Hlen _ _ _ Hpre) as [Hnd Hsum].
  destruct (outputs_prefix_locks env stk h a Hlen _ _ _ Hpre)
    as [[Hcap _] Hseen].
  auto.
Qed.

Lemma uninitialized_bucket_is_the_sums_witness :
  let env := Host.env Examples.tx_mint_twice in
  let bucket := [SwapInfo.mk Examples.LOCK 500;
                 SwapInfo.mk (Host.hash_of x22) 5] in
  NoDup (locks bucket)
  /\ Forall (entry_sums env Examples.SELF 3) bucket
  /\ (forall j v, (j < 3)%nat -> uninit_lock env Examples.SELF j = Some v ->
                  In v (locks bucket))
  /\ (length bucket <= MAX_SWAPS)%nat.
Proof.
  intros env bucket.
  apply (uninitialized_bucket_is_the_sums env (Examples.zero_stack 0)
           Examples.SELF 100 3 0
           {| deposited_dao := []; deposited_dao_cnt := 0;
              uninitialized_wckb := bucket; initialized_wckb := [] |});
    vm_compute; reflexivity.
Defined.

(** ** What the output scan returns *)

Lemma fetch_outputs_loop_stops_at
    (env : Env) (stk : Indeterminate) (h : list byte) (a : Z)
    (fuel i p : nat) (st : Outputs) (r : retcode) (outs : Outputs) :
  outputs_prefix env stk h a i = Some (p, st) ->
  fetch_outputs_loop env stk fuel h a i p st = Ret (r, outs) ->
  exists k q,
    (i <= k < i + fuel)%nat
    /\ outputs_prefix env stk h a k = Some (q, outs)
    /\ output_cell env stk h a k q outs = Ret (Break r).
Proof.
  revert i p st. induction fuel as [|fuel IH]; intros i p st Hpre H;
    simpl in H; [discriminate|].
  destruct (output_cell env stk h a i p st) as [[r0|[p' st']]| |] eqn:Hcell;
    simpl in H; try discriminate.
  - injection H as <- <-. exists i, p. repeat split; auto; lia.
  - destruct (int_incr i) as [i'| |] eqn:Hi; simpl in H; try discriminate.
    assert (Hnext : outputs_prefix env stk h a (S i) = Some (p', st'))
      by (simpl; now rewrite Hpre, Hcell, Hi).
    unfold int_incr in Hi. destruct (Z.of_nat i <? INT_MAX); [|discriminate].
    injection Hi as <-.
    destruct (IH _ _ _ Hnext H) as (k & q & Hk & Hq & Hbreak).
    exists k, q. repeat split; auto; lia.
Qed.



(** X12: The total of the outputs in equation 1: after an output scan that
    returned [CKB_SUCCESS], the loop of lines 454-462 never fails, leaves
    [calculated_capacity] as it found it, and its total is 0 for an empty
    bucket and that left-over capacity otherwise; the amounts of the
    outputs do not enter it. *)
Theorem output_total_is_the_capacity_left
    (env : Env) (stk : Indeterminate) (fuel : nat) (h : list byte)
    (tgt : dao_header_data_t.t) (outs : Outputs) (c : Z) :
  fetch_outputs env stk fuel h (dao_header_data_t.block_number tgt)
  = Ret (CKB_SUCCESS, outs) ->
  align_loop env CKB_SOURCE_OUTPUT tgt (initialized_wckb outs) 0 c 0
  = (CKB_SUCCESS, c,
     match initialized_wckb outs with [] => 0 | _ :: _ => u64 c end).
Proof.
  intros H. unfold fetch_outputs in H.
  apply fetch_outputs_loop_one_height in H;
    [|split; simpl; [lia|constructor]].
  destruct H as [Hlen Hall].
  destruct (initialized_wckb outs) as [|t [|t' l]]; simpl in Hlen;
    [reflexivity| |lia].
  inversion Hall as [|? ? Ht _]; subst.
  cbn [align_loop]. unfold align_dao. rewrite Ht, Z.eqb_refl.
  reflexivity.
Qed.

Lemma output_total_is_the_capacity_left_witness :
  align_loop (Host.env Examples.tx_two_outputs) CKB_SOURCE_OUTPUT
    (Examples.header_at 100) [TokenInfo.mk 100 1000] 0 7 0
  = (CKB_SUCCESS, 7, u64 7).
Proof.
  apply (output_total_is_the_capacity_left
           (Host.env Examples.tx_two_outputs) (Examples.zero_stack 0) 5
           Examples.SELF (Examples.header_at 100)
           {| deposited_dao := []; deposited_dao_cnt := 0;
              uninitialized_wckb := [];
              initialized_wckb := [TokenInfo.mk 100 1000] |} 7).
  vm_compute. reflexivity.
Defined.

(** ** The codes of the scans *)

Lemma output_cell_codes
    (env : Env) (stk : Indeterminate) (h : list byte) (a : Z)
    (i p : nat) (st : Outputs) (r : retcode) :
  output_cell env stk h a i p st = Ret (Break r) ->
  In r [CKB_SUCCESS; ERROR_ENCODING; ERROR_SYSCALL; ERROR_TOO_MANY_SWAPS;
        ERROR_OUTPUT_ALIGN].
Proof.
  intros H. unfold output_cell, bind, deref_cnt in H.
  break_match_in H; injection H as <-; simpl; tauto.
Qed.

(** X13: [fetch_outputs] returns no other code than [CKB_SUCCESS],
    [ERROR_ENCODING], [ERROR_SYSCALL], [ERROR_TOO_MANY_SWAPS] and
    [ERROR_OUTPUT_ALIGN], whatever the host answers. *)
Theorem fetch_outputs_codes
    (env : Env) (stk : Indeterminate) (fuel : nat) (h : list byte) (a : Z)
    (r : retcode) (outs : Outputs) :
  fetch_outputs env stk fuel h a = Ret (r, outs) ->
  In r [CKB_SUCCESS; ERROR_ENCODING; ERROR_SYSCALL; ERROR_TOO_MANY_SWAPS;
        ERROR_OUTPUT_ALIGN].
Proof.
  intros H.
  destruct (fetch_outputs_loop_stops_at env stk h a fuel 0 0 no_outputs r outs
              eq_refl H) as (k & q & _ & _ & Hbreak).
  eapply output_cell_codes; eassumption.
Qed.

Lemma fetch_outputs_codes_witness :
  In ERROR_OUTPUT_ALIGN
     [CKB_SUCCESS; ERROR_ENCODING; ERROR_SYSCALL; ERROR_TOO_MANY_SWAPS;
      ERROR_OUTPUT_ALIGN].
Proof.
  apply (fetch_outputs_codes (Host.env Examples.tx_scenario_C)
           (Examples.zero_stack 0) 5 Examples.SELF 150 ERROR_OUTPUT_ALIGN
           no_outputs).
  vm_compute. reflexivity.
Defined.

Lemma input_cell_codes
    (env : Env) (stk : Indeterminate) (h : list byte)
    (i : nat) (w iw : list TokenInfo.t) (r : retcode) :
  input_cell env stk h i w iw = Ret (Break r) ->
  r = CKB_SUCCESS \/ r = ERROR_ENCODING
  \/ r = fst (host_deposit_header_index env i).
Proof.
  intros H. unfold input_cell, bind, store_new in H.
  break_match_in H; injection H as <-; auto;
    match goal with
    | E : extract_deposit_header_index _ _ = (_, _) |- _ =>
        unfold extract_deposit_header_index in E; rewrite E; auto
    end.
Qed.

(** X14: [fetch_inputs] returns [CKB_SUCCESS], [ERROR_ENCODING], or the code
    that [extract_deposit_header_index] gave for one of the inputs; it has
    no other code of its own. *)
Theorem fetch_inputs_codes
    (env : Env) (stk : Indeterminate) (fuel : nat) (h : list byte)
    (r : retcode) (w iw : list TokenInfo.t) :
  fetch_inputs env stk fuel h = Ret (r, w, iw) ->
  r = CKB_SUCCESS \/ r = ERROR_ENCODING
  \/ exists j, r = fst (host_deposit_header_index env j).
Proof.
  unfold fetch_inputs. generalize 0%nat.
  generalize (@nil TokenInfo.t) at 1. generalize (@nil TokenInfo.t) at 1.
  induction fuel as [|fuel IH]; intros iw0 w0 i H; simpl in H;
    [discriminate|].
  destruct (input_cell env stk h i w0 iw0) as [[r0|[w1 iw1]]| |] eqn:Hcell;
    simpl in H; try discriminate.
  - injection H as <- <- <-.
    destruct (input_cell_codes _ _ _ _ _ _ _ Hcell) as [E|[E|E]]; eauto.
  - destruct (int_incr i) as [i'| |]; simpl in H; try discriminate.
    eapply IH; eassumption.
Qed.

Lemma fetch_inputs_codes_witness :
  ERROR_ENCODING = CKB_SUCCESS \/ ERROR_ENCODING = ERROR_ENCODING
  \/ exists j,
       ERROR_ENCODING
       = fst (host_deposit_header_index (Host.env Examples.tx_input_24) j).
Proof.
  apply (fetch_inputs_codes (Host.env Examples.tx_input_24)
           (Examples.zero_stack 0) 5 Examples.SELF ERROR_ENCODING [] []).
  vm_compute. reflexivity.
Defined.

(** ** The input scan *)

Lemma memcmp_eq_whole (x y : list byte) (n : nat) :
  length x = n -> length y = n -> memcmp_eq x y n = bytes_eqb x y.
Proof.
  intros Hx Hy. unfold memcmp_eq.
  rewrite <- Hx at 1. rewrite <- Hy at 1. now rewrite !firstn_all.
Qed.

Lemma is_dao_withdraw1_cell_length
    (cell_type_hash data : list byte) (data_len : nat) :
  is_dao_withdraw1_cell cell_type_hash data data_len = true ->
  data_len = BLOCK_NUM_LEN.
Proof.
  unfold is_dao_withdraw1_cell. intros H.
  apply andb_true_iff in H. destruct H as [H _].
  apply andb_true_iff in H. destruct H as [_ H].
  now apply Nat.eqb_eq in H.
Qed.

Section InputScan.

Variable env : Env.
Variable stk : Indeterminate.
Variable h : list byte.

Hypothesis h_len : length h = BLAKE2B_BLOCK_SIZE.

(** One pass of the loop appends to the WCKB bucket the entry of the cell
    when the cell is a wrapped-token cell with a 16-byte payload, and
    nothing otherwise. *)
Lemma input_cell_appends (i : nat) (w iw w' iw' : list TokenInfo.t) :
  input_cell env stk h i w iw = Ret (Continue (w', iw')) ->
  iw' = iw ++ match wckb_input_entry env stk h i with
              | Some e => [e]
              | None => []
              end.
Proof.
  unfold input_cell, wckb_input_entry, ckb_checked_load_cell_by_field at 1,
    ckb_load_cell_data.
  destruct (host_cell_field env i CKB_SOURCE_INPUT CKB_CELL_FIELD_TYPE_HASH)
    as [r v].
  destruct r; try discriminate.
  - (* the type hash is there *)
    destruct (Nat.ltb_spec BLAKE2B_BLOCK_SIZE (length v)) as [Hlong|Hfit];
      [discriminate|].
    destruct (Nat.eqb_spec (length v) BLAKE2B_BLOCK_SIZE) as [Hv|Hv];
      cbn [negb]; [|discriminate].
    destruct (host_cell_data env i CKB_SOURCE_INPUT) as [r d].
    destruct r; try discriminate.
    + (* the data are there *)
      destruct (UDT_LEN + BLOCK_NUM_LEN <? length d)%nat; [discriminate|].
      destruct (is_dao_withdraw1_cell v _ (length d)) eqn:Hw.
      * apply is_dao_withdraw1_cell_length in Hw. rewrite Hw.
        replace (BLOCK_NUM_LEN =? UDT_LEN)%nat with false by reflexivity.
        intros H. unfold bind, store_new in H.
        break_match_in H; injection H as <- <-;
          destruct (bytes_eqb v h); now rewrite app_nil_r.
      * rewrite (memcmp_eq_whole _ _ _ Hv h_len).
        destruct (bytes_eqb v h).
        -- destruct (Nat.eqb_spec (length d) UDT_LEN) as [Hd|Hd]; cbn [negb];
             [|discriminate].
           unfold bind, store_new.
           destruct (length iw <? MAX_SWAPS)%nat; [|discriminate].
           now intros [= <- <-].
        -- intros [= <- <-]. now rewrite app_nil_r.
    + (* no data *)
      intros [= <- <-]. destruct (bytes_eqb v h); now rewrite app_nil_r.
  - (* no type script *)
    intros [= <- <-]. now rewrite app_nil_r.
Qed.

Lemma fetch_inputs_loop_resume
    (k : nat) (w iw : list TokenInfo.t) (fuel : nat) :
  inputs_prefix env stk h k = Some (w, iw) ->
  fetch_inputs_loop env stk (k + fuel) h 0 [] []
  = fetch_inputs_loop env stk fuel h k w iw.
Proof.
  revert w iw fuel. induction k as [|k IH]; intros w iw fuel H.
  - now injection H as <- <-.
  - simpl in H.
    destruct (inputs_prefix env stk h k) as [[w0 iw0]|]; [|discriminate].
    destruct (input_cell env stk h k w0 iw0) as [[r|s]| |] eqn:Hcell;
      try discriminate.
    destruct (int_incr k) as [k'| |] eqn:Hk; try discriminate.
    injection H as ->.
    replace (S k + fuel)%nat with (k + S fuel)%nat by lia.
    rewrite (IH w0 iw0 (S fuel) eq_refl). simpl. rewrite Hcell. simpl.
    rewrite Hk. simpl. unfold int_incr in Hk.
    destruct (Z.of_nat k <? INT_MAX); [|discriminate].
    now injection Hk as <-.
Qed.

Lemma fetch_inputs_break
    (k : nat) (w iw : list TokenInfo.t) (r : retcode) (fuel : nat) :
  inputs_prefix env stk h k = Some (w, iw) ->
  input_cell env stk h k w iw = Ret (Break r) ->
  (k < fuel)%nat ->
  fetch_inputs env stk fuel h = Ret (r, w, iw).
Proof.
  intros Hk Hcell Hlt. unfold fetch_inputs.
  replace fuel with (k + S (fuel - S k))%nat by lia.
  rewrite (fetch_inputs_loop_resume _ _ _ _ Hk). simpl.
  now rewrite Hcell.
Qed.

End InputScan.

(** X15: When the input scan gets to index [k], the WCKB bucket lists, in scan
    order, the entries of the wrapped-token inputs with a 16-byte payload
    before [k], one entry for each cell; the other inputs add nothing. *)
Theorem input_bucket_in_scan_order
    (env : Env) (stk : Indeterminate) (h : list byte)
    (k : nat) (w iw : list TokenInfo.t) :
  length h = BLAKE2B_BLOCK_SIZE ->
  inputs_prefix env stk h k = Some (w, iw) ->
  iw = flat_map (fun j => match wckb_input_entry env stk h j with
                          | Some e => [e]
                          | None => []
                          end) (seq 0 k).
Proof.
  intros Hlen. revert w iw. induction k as [|k IH]; intros w iw H; simpl in H.
  - now injection H as <- <-.
  - destruct (inputs_prefix env stk h k) as [[w0 iw0]|]; [|discriminate].
    destruct (input_cell env stk h k w0 iw0) as [[r|[w1 iw1]]| |] eqn:Hcell;
      try discriminate.
    destruct (int_incr k); try discriminate.
    injection H as <- <-.
    rewrite seq_S, flat_map_app. cbn [flat_map Nat.add].
    rewrite app_nil_r, <- (IH _ _ eq_refl).
    eapply input_cell_appends; eassumption.
Qed.

Lemma input_bucket_in_scan_order_witness :
  [TokenInfo.mk 0 1000]
  = flat_map (fun j => match wckb_input_entry
                                (Host.env
                                   (Examples.tx_withdraw Host.no_interest))
                                (Examples.zero_stack 0) Examples.SELF j with
                       | Some e => [e]
                       | None => []
                       end) (seq 0 2).
Proof.
  apply (input_bucket_in_scan_order
           (Host.env (Examples.tx_withdraw Host.no_interest))
           (Examples.zero_stack 0) Examples.SELF 2
           [TokenInfo.mk 50 50000] [TokenInfo.mk 0 1000]);
    vm_compute; reflexivity.
Defined.

Lemma main_input_error
    (env : Env) (stk : Indeterminate) (fuel : nat) (h : list byte)
    (tgt : dao_header_data_t.t) (r : retcode) (w iw : list TokenInfo.t) :
  host_script_hash env = (CKB_SUCCESS, h) ->
  length h = BLAKE2B_BLOCK_SIZE ->
  host_dao_header env 0 CKB_SOURCE_GROUP_INPUT = (CKB_SUCCESS, tgt) ->
  fetch_inputs env stk fuel h = Ret (r, w, iw) ->
  is_success r = false ->
  main env stk fuel = Ret r.
Proof.
  intros Hh Hlen Htgt Hin Hr.
  unfold main, ckb_load_script_hash, load_dao_header_data.
  assert (Hfull : firstn BLAKE2B_BLOCK_SIZE h = h)
    by (rewrite <- Hlen; apply firstn_all).
  rewrite Hh, Htgt, Hfull, Hlen. simpl. rewrite Hin. simpl.
  now rewrite Hr.
Qed.

Lemma input_cell_wrong_length
    (env : Env) (stk : Indeterminate) (h d : list byte)
    (i : nat) (w iw : list TokenInfo.t) :
  length h = BLAKE2B_BLOCK_SIZE ->
  h <> NERVOS_DAO_TYPE_HASH ->
  host_cell_field env i CKB_SOURCE_INPUT CKB_CELL_FIELD_TYPE_HASH
  = (CKB_SUCCESS, h) ->
  host_cell_data env i CKB_SOURCE_INPUT = (CKB_SUCCESS, d) ->
  length d <> UDT_LEN ->
  input_cell env stk h i w iw = Ret (Break ERROR_ENCODING).
Proof.
  intros Hh Hdao Hty Hd Hlen. unfold input_cell.
  rewrite (checked_load_fits _ _ _ _ _ _ Hty)
    by (rewrite Hh; apply Nat.le_refl).
  unfold ckb_load_cell_data. rewrite Hd, Hh.
  cbn [Nat.eqb negb BLAKE2B_BLOCK_SIZE].
  destruct (UDT_LEN + BLOCK_NUM_LEN <? length d)%nat; [reflexivity|].
  assert (Hnot : memcmp_eq h NERVOS_DAO_TYPE_HASH BLAKE2B_BLOCK_SIZE = false).
  { destruct (memcmp_eq h NERVOS_DAO_TYPE_HASH BLAKE2B_BLOCK_SIZE) eqn:E;
      [|reflexivity].
    apply memcmp_eq_full in E; [contradiction|assumption|reflexivity]. }
  unfold is_dao_withdraw1_cell. rewrite Hnot. cbn [andb].
  rewrite memcmp_eq_refl.
  apply Nat.eqb_neq in Hlen. now rewrite Hlen.
Qed.

(** X16: When the input scan gets to a wrapped-token cell whose payload is not
    exactly 16 bytes long, [main] returns [ERROR_ENCODING]; the 24-byte
    payload that the output scan asks for is one of them. *)
Theorem input_payload_must_be_16_bytes
    (env : Env) (stk : Indeterminate) (fuel : nat) (h d : list byte)
    (tgt : dao_header_data_t.t) (k : nat) (w iw : list TokenInfo.t) :
  host_script_hash env = (CKB_SUCCESS, h) ->
  length h = BLAKE2B_BLOCK_SIZE ->
  h <> NERVOS_DAO_TYPE_HASH ->
  host_dao_header env 0 CKB_SOURCE_GROUP_INPUT = (CKB_SUCCESS, tgt) ->
  inputs_prefix env stk h k = Some (w, iw) ->
  host_cell_field env k CKB_SOURCE_INPUT CKB_CELL_FIELD_TYPE_HASH
  = (CKB_SUCCESS, h) ->
  host_cell_data env k CKB_SOURCE_INPUT = (CKB_SUCCESS, d) ->
  length d <> UDT_LEN ->
  (k < fuel)%nat ->
  main env stk fuel = Ret ERROR_ENCODING.
Proof.
  intros Hh Hlen Hdao Htgt Hpre Hty Hd Hdl Hfuel.
  apply (main_input_error env stk fuel h tgt ERROR_ENCODING w iw);
    try assumption; [|reflexivity].
  eapply fetch_inputs_break; try eassumption.
  eapply input_cell_wrong_length; eassumption.
Qed.

Lemma input_payload_must_be_16_bytes_witness :
  main (Host.env Examples.tx_input_24) (Examples.zero_stack 0) 5
  = Ret ERROR_ENCODING.
Proof.
  apply (input_payload_must_be_16_bytes
           (Host.env Examples.tx_input_24) (Examples.zero_stack 0) 5
           Examples.SELF (Host.wckb_data 1000 100) (Examples.header_at 100)
           0 [] []);
    try (vm_compute; reflexivity); try (vm_compute; discriminate); lia.
Defined.

(** ** Cells that are not the script's business *)

(** X17: An output with a type script that is neither a NervosDAO deposit nor a
    wrapped-token cell, and whose data fit the 24-byte buffer, changes
    nothing: the scan goes on with the same buckets. *)
Theorem other_output_is_skipped
    (env : Env) (stk : Indeterminate) (h v d : list byte) (a : Z)
    (i p : nat) (st : Outputs) :
  length h = BLAKE2B_BLOCK_SIZE ->
  host_cell_field env i CKB_SOURCE_OUTPUT CKB_CELL_FIELD_TYPE_HASH
  = (CKB_SUCCESS, v) ->
  length v = BLAKE2B_BLOCK_SIZE ->
  v <> h ->
  host_cell_data env i CKB_SOURCE_OUTPUT = (CKB_SUCCESS, d) ->
  (length d <= UDT_LEN + BLOCK_NUM_LEN)%nat ->
  is_dao_deposit_cell v (load_into (stack_buf stk CKB_SOURCE_OUTPUT i)
                           (UDT_LEN + BLOCK_NUM_LEN) d) (length d) = false ->
  output_cell env stk h a i p st = Ret (Continue (p, st)).
Proof.
  intros Hh Hty Hv Hne Hd Hfit Hdao. unfold output_cell.
  rewrite (checked_load_fits _ _ _ _ _ _ Hty)
    by (rewrite Hv; apply Nat.le_refl).
  unfold ckb_load_cell_data. rewrite Hd, Hv.
  cbn [Nat.eqb negb BLAKE2B_BLOCK_SIZE].
  destruct (Nat.ltb_spec (UDT_LEN + BLOCK_NUM_LEN) (length d)) as [Hl|_];
    [lia|].
  rewrite Hdao.
  assert (Hnot : memcmp_eq v h BLAKE2B_BLOCK_SIZE = false).
  { destruct (memcmp_eq v h BLAKE2B_BLOCK_SIZE) eqn:E; [|reflexivity].
    apply memcmp_eq_full in E; [contradiction|assumption..]. }
  now rewrite Hnot.
Qed.

Lemma other_output_is_skipped_witness :
  output_cell (Host.env Examples.tx_two_outputs) (Examples.zero_stack 0)
    (Host.hash_of x33) 100 0 0 no_outputs
  = Ret (Continue (0%nat, no_outputs)).
Proof.
  apply (other_output_is_skipped
           (Host.env Examples.tx_two_outputs) (Examples.zero_stack 0)
           (Host.hash_of x33) Examples.SELF (Host.wckb_data 600 100)
           100 0 0 no_outputs).
  - reflexivity.
  - reflexivity.
  - reflexivity.
  - vm_compute. discriminate.
  - reflexivity.
  - vm_compute. lia.
  - vm_compute. reflexivity.
Defined.

(** X18: When the output scan gets to a cell with a type script, any type
    script, whose data are longer than 24 bytes, [main] returns
    [ERROR_ENCODING]. *)
Theorem long_output_data_is_encoding_error
    (env : Env) (stk : Indeterminate) (fuel : nat) (h v d : list byte)
    (tgt : dao_header_data_t.t) (w iw : list TokenInfo.t)
    (k p : nat) (st : Outputs) :
  inputs_scanned env stk fuel h tgt w iw ->
  outputs_prefix env stk h (dao_header_data_t.block_number tgt) k
  = Some (p, st) ->
  host_cell_field env k CKB_SOURCE_OUTPUT CKB_CELL_FIELD_TYPE_HASH
  = (CKB_SUCCESS, v) ->
  length v = BLAKE2B_BLOCK_SIZE ->
  host_cell_data env k CKB_SOURCE_OUTPUT = (CKB_SUCCESS, d) ->
  (UDT_LEN + BLOCK_NUM_LEN < length d)%nat ->
  (k < fuel)%nat ->
  main env stk fuel = Ret ERROR_ENCODING.
Proof.
  intros Hin Hpre Hty Hv Hd Hlong Hfuel.
  apply (main_output_error env stk fuel h tgt w iw ERROR_ENCODING st Hin);
    [|reflexivity].
  eapply fetch_outputs_break; try eassumption; [apply Hin|].
  unfold output_cell.
  rewrite (checked_load_fits _ _ _ _ _ _ Hty)
    by (rewrite Hv; apply Nat.le_refl).
  unfold ckb_load_cell_data. rewrite Hd, Hv.
  cbn [Nat.eqb negb BLAKE2B_BLOCK_SIZE].
  destruct (Nat.ltb_spec (UDT_LEN + BLOCK_NUM_LEN) (length d)) as [_|Hl];
    [reflexivity|lia].
Qed.

Lemma long_output_data_is_encoding_error_witness :
  main (Host.env Examples.tx_with_long_data) (Examples.zero_stack 0) 5
  = Ret ERROR_ENCODING.
Proof.
  eapply (long_output_data_is_encoding_error
            (Host.env Examples.tx_with_long_data) (Examples.zero_stack 0) 5
            Examples.SELF (Host.hash_of x33) (repeat x01 25)
            (Examples.header_at 100) [] [TokenInfo.mk 0 1000] 1).
  - repeat split; vm_compute; reflexivity.
  - vm_compute. reflexivity.
  - reflexivity.
  - reflexivity.
  - reflexivity.
  - vm_compute. lia.
  - lia.
Defined.

(** ** Before and after the scans *)

(** X19: Without an alignment target there is no validation: when the header of
    the first input of the script group does not load, [main] returns
    [ERROR_ENCODING] whatever the cells are, before it scans any. *)
Theorem main_without_target
    (env : Env) (stk : Indeterminate) (fuel : nat) (h : list byte) :
  host_script_hash env = (CKB_SUCCESS, h) ->
  length h = BLAKE2B_BLOCK_SIZE ->
  is_success (fst (host_dao_header env 0 CKB_SOURCE_GROUP_INPUT)) = false ->
  main env stk fuel = Ret ERROR_ENCODING.
Proof.
  intros Hh Hlen Htgt.
  unfold main, ckb_load_script_hash, load_dao_header_data.
  rewrite Hh, Hlen.
  destruct (host_dao_header env 0 CKB_SOURCE_GROUP_INPUT) as [r tgt].
  simpl in Htgt. simpl. now rewrite Htgt.
Qed.

Lemma main_without_target_witness :
  main (Host.env Examples.tx_scenario_B_alone) (Examples.zero_stack 0) 0
  = Ret ERROR_ENCODING.
Proof.
  apply (main_without_target (Host.env Examples.tx_scenario_B_alone)
           (Examples.zero_stack 0) 0 Examples.SELF); reflexivity.
Defined.

(** Scenario B is such a run. *)
Lemma uninitialized_output_never_accepted_witness :
  main (Host.env Examples.tx_scenario_B) (Examples.zero_stack 0) 5
  <> Ret CKB_SUCCESS.
Proof.
  apply (uninitialized_output_never_accepted
           (Host.env Examples.tx_scenario_B) (Examples.zero_stack 0) 5
           Examples.SELF (Examples.header_at 100) [] [TokenInfo.mk 0 1000]
           {| deposited_dao := [SwapInfo.mk Examples.LOCK 500];
              deposited_dao_cnt := 0;
              uninitialized_wckb := [SwapInfo.mk Examples.LOCK 500];
              initialized_wckb := [TokenInfo.mk 100 1000] |}).
  - repeat split; vm_compute; reflexivity.
  - discriminate.
Defined.

(** X21: Acceptance, once the scans and the three alignment loops went through:
    [main] returns [CKB_SUCCESS] exactly when equation 1 holds on the
    64-bit totals and the uninitialized bucket is empty. *)
Theorem main_accepts
    (env : Env) (stk : Indeterminate) (fuel : nat) (h : list byte)
    (tgt : dao_header_data_t.t) (w iw : list TokenInfo.t) (outs : Outputs)
    (c1 c2 c3 total_withdraw_dao total_input_wckb total_output_wckb : Z) :
  scanned env stk fuel h tgt w iw outs ->
  align_loop env CKB_SOURCE_INPUT tgt w 0 (stack_calculated_capacity stk) 0
  = (CKB_SUCCESS, c1, total_withdraw_dao) ->
  align_loop env CKB_SOURCE_INPUT tgt iw 0 c1 0
  = (CKB_SUCCESS, c2, total_input_wckb) ->
  align_loop env CKB_SOURCE_OUTPUT tgt (initialized_wckb outs) 0 c2 0
  = (CKB_SUCCESS, c3, total_output_wckb) ->
  main env stk fuel = Ret CKB_SUCCESS
  <-> equation_1 total_input_wckb total_withdraw_dao total_output_wckb = true
      /\ uninitialized_wckb outs = [].
Proof.
  intros Hscan Hw Hiw Ho.
  destruct (main_checks_totals _ _ _ _ _ _ _ _ _ _ _ _ _ _ Hscan Hw Hiw Ho)
    as [-> _].
  destruct Hscan as [_ Hout]. apply fetch_outputs_loop_counter in Hout.
  simpl in Hout. unfold check_totals. rewrite Hout.
  destruct (equation_1 total_input_wckb total_withdraw_dao total_output_wckb);
    cbn [negb].
  - destruct (uninitialized_wckb outs) as [|u uw].
    + simpl. tauto.
    + rewrite equation_2_without_counter. split; [discriminate|].
      intros [_ E]. discriminate.
  - split; [discriminate|]. intros [E _]. discriminate.
Qed.

Lemma main_accepts_witness :
  main (Host.env (Examples.tx_transfer 1000)) (Examples.zero_stack 0) 5
  = Ret CKB_SUCCESS
  <-> equation_1 1000 0 1000 = true /\ @nil SwapInfo.t = [].
Proof.
  apply (main_accepts (Host.env (Examples.tx_transfer 1000))
           (Examples.zero_stack 0) 5 Examples.SELF (Examples.header_at 100)
           [] [TokenInfo.mk 0 1000]
           {| deposited_dao := []; deposited_dao_cnt := 0;
              uninitialized_wckb := [];
              initialized_wckb := [TokenInfo.mk 100 1000] |}
           0 1000 1000 0 1000 1000).
  - repeat split; vm_compute; reflexivity.
  - vm_compute. reflexivity.
  - vm_compute. reflexivity.
  - vm_compute. reflexivity.
Defined.
